(** * alm-agent: the message processor, the skill classifier and the agent profile

    A shallow embedding of [AIProcessor] (src/ai/processor.ts) and of
    [AgentProfileManager] (src/agent-protocol/profile.ts), together with a
    model of the agent registry the two of them talk to.

    JavaScript strings are sequences of UTF-16 code units; they are modelled
    as [list N].  Promises are modelled by their settled outcome. *)

From Stdlib Require Import ZArith NArith QArith Lia Bool.
From Stdlib Require Import Strings.String Strings.Ascii Numbers.DecimalString.
From stdpp Require Import base list gmap strings.

Local Open Scope N_scope.

(** ** JavaScript strings *)

Abbreviation jsstring := (list N).

Module JsString.

(** UTF-16 encoding of one code point. *)
Definition encodeCodePoint (cp : N) : jsstring :=
  if cp <? 0x10000 then [cp]
  else [0xD800 + N.shiftr (cp - 0x10000) 10; 0xDC00 + N.land (cp - 0x10000) 0x3FF].

(** Literals are written as Rocq strings, which hold the UTF-8 bytes of the
    source text; [utf16] re-encodes them as the code units a JavaScript
    engine holds for the same literal. *)
Fixpoint utf16 (pending : N) (need : nat) (s : string) : jsstring :=
  match s with
  | EmptyString => []
  | String a t =>
      let b := N_of_ascii a in
      match need with
      | O =>
          if b <? 0x80 then b :: utf16 0 0 t
          else if b <? 0xE0 then utf16 (N.land b 0x1F) 1 t
          else if b <? 0xF0 then utf16 (N.land b 0x0F) 2 t
          else utf16 (N.land b 0x07) 3 t
      | S O => encodeCodePoint (pending * 64 + N.land b 0x3F) ++ utf16 0 0 t
      | S n => utf16 (pending * 64 + N.land b 0x3F) n t
      end
  end.

Definition js (s : string) : jsstring := utf16 0 0 s.

(** [a === b] on strings. *)
Definition eqb (a b : jsstring) : bool := bool_decide (a = b).

(** [s.startsWith(sub)] *)
Fixpoint startsWith (s sub : jsstring) : bool :=
  match sub, s with
  | [], _ => true
  | _ :: _, [] => false
  | c :: sub', d :: s' => (c =? d) && startsWith s' sub'
  end.

(** [s.includes(sub)]: [sub] occurs in [s] at some position. *)
Fixpoint includes (s sub : jsstring) : bool :=
  startsWith s sub ||
  match s with
  | [] => false
  | _ :: s' => includes s' sub
  end.

(** A string is truthy when it is not empty. *)
Definition truthy (s : jsstring) : bool :=
  match s with [] => false | _ => true end.

(** [s.substring(0, n)] *)
Definition substring0 (n : nat) (s : jsstring) : jsstring := take n s.

(** White space and line terminators: what [trim] strips and [\s] matches. *)
Definition isWhiteSpace (c : N) : bool :=
  ((0x09 <=? c) && (c <=? 0x0D)) || (c =? 0x20) || (c =? 0xA0) || (c =? 0x1680)
  || ((0x2000 <=? c) && (c <=? 0x200A)) || (c =? 0x2028) || (c =? 0x2029)
  || (c =? 0x202F) || (c =? 0x205F) || (c =? 0x3000) || (c =? 0xFEFF).

Fixpoint trimStart (s : jsstring) : jsstring :=
  match s with
  | [] => []
  | c :: t => if isWhiteSpace c then trimStart t else s
  end.

Definition trimEnd (s : jsstring) : jsstring := reverse (trimStart (reverse s)).

Definition trim (s : jsstring) : jsstring := trimEnd (trimStart s).

(** Decimal text of an integer, as a template literal prints it (for
    magnitudes below 10^21, where the engine does not switch to exponent
    notation). *)
Definition ofZ (z : Z) : jsstring := js (NilEmpty.string_of_int (Z.to_int z)).

End JsString.

Import JsString.

(** The Unicode data the engine supplies: [String.prototype.toLowerCase]
    and the general categories behind [\p{L}] and [\p{N}]. *)
Class UnicodeTables := {
  toLowerCase : jsstring -> jsstring;
  isLetterOrNumber : N -> bool
}.

(** An instance exact on text written in Basic Latin and Cyrillic, the two
    alphabets of the keyword table. *)
Module BasicUnicode.

Definition lowerUnit (c : N) : N :=
  if (0x41 <=? c) && (c <=? 0x5A) then c + 0x20
  else if (0x410 <=? c) && (c <=? 0x42F) then c + 0x20
  else if (0x400 <=? c) && (c <=? 0x40F) then c + 0x50
  else c.

Definition letterOrNumber (c : N) : bool :=
  ((0x30 <=? c) && (c <=? 0x39)) || ((0x41 <=? c) && (c <=? 0x5A))
  || ((0x61 <=? c) && (c <=? 0x7A)) || ((0x400 <=? c) && (c <=? 0x481))
  || ((0x48A <=? c) && (c <=? 0x52F)).

Definition tables : UnicodeTables :=
  {| toLowerCase := map lowerUnit; isLetterOrNumber := letterOrNumber |}.

End BasicUnicode.

(** ** The skill classifier *)

Section SkillClassifier.
Context {U : UnicodeTables}.

(** [AIProcessor.detectSkillName] *)
Definition detectSkillName (message : jsstring) : jsstring :=
  let lower := toLowerCase message in
  if includes lower (js "баланс") || includes lower (js "balance")
     || includes lower (js "wallet") || includes lower (js "кошелек")
     || includes lower (js "кошелёк")
  then js "Balance Checker"
  else if includes lower (js "транзакц") || includes lower (js "transaction")
          || includes lower (js "история")
  then js "Transaction Analyzer"
  else if includes lower (js "цен") || includes lower (js "price")
          || includes lower (js "курс")
  then js "Price Monitor"
  else if includes lower (js "сеть") || includes lower (js "network")
          || includes lower (js "статус") || includes lower (js "status")
          || includes lower (js "slot")
  then js "Network Status"
  else js "".

(** The classifier's policy as a table: rules in their fixed order, each a
    keyword set and a tag. *)
Record SkillRule := { keywords : list jsstring; tag : jsstring }.

Definition balanceRule : SkillRule :=
  {| keywords := [js "баланс"; js "balance"; js "wallet"; js "кошелек"; js "кошелёк"];
     tag := js "Balance Checker" |}.
Definition transactionRule : SkillRule :=
  {| keywords := [js "транзакц"; js "transaction"; js "история"];
     tag := js "Transaction Analyzer" |}.
Definition priceRule : SkillRule :=
  {| keywords := [js "цен"; js "price"; js "курс"]; tag := js "Price Monitor" |}.
Definition networkRule : SkillRule :=
  {| keywords := [js "сеть"; js "network"; js "статус"; js "status"; js "slot"];
     tag := js "Network Status" |}.

Definition skillRules : list SkillRule :=
  [balanceRule; transactionRule; priceRule; networkRule].

(** A rule matches a lower-cased text when one of its keywords occurs in it. *)
Definition ruleMatches (lower : jsstring) (r : SkillRule) : bool :=
  existsb (includes lower) (keywords r).

(** First match wins; the empty tag when no rule matches. *)
Definition firstMatchingTag (rules : list SkillRule) (lower : jsstring) : jsstring :=
  match find (ruleMatches lower) rules with
  | Some r => tag r
  | None => js ""
  end.

End SkillClassifier.

(** ** Input and output hygiene *)

Section Hygiene.
Context {U : UnicodeTables}.

(** [replace(/\s+/g, ' ')]: every maximal run of white space becomes one
    space.  [inRun] tells that the previous unit was white space. *)
Fixpoint collapseWhiteSpace (inRun : bool) (s : jsstring) : jsstring :=
  match s with
  | [] => []
  | c :: t =>
      if isWhiteSpace c
      then (if inRun then collapseWhiteSpace true t
            else 0x20 :: collapseWhiteSpace true t)
      else c :: collapseWhiteSpace false t
  end.

Definition isHighSurrogate (c : N) : bool := (0xD800 <=? c) && (c <=? 0xDBFF).
Definition isLowSurrogate (c : N) : bool := (0xDC00 <=? c) && (c <=? 0xDFFF).
Definition codePointOfPair (hi lo : N) : N :=
  0x10000 + (hi - 0xD800) * 0x400 + (lo - 0xDC00).

(** [\w] *)
Definition isWordChar (c : N) : bool :=
  ((0x30 <=? c) && (c <=? 0x39)) || ((0x41 <=? c) && (c <=? 0x5A))
  || ((0x61 <=? c) && (c <=? 0x7A)) || (c =? 0x5F).

(** The punctuation listed in the class: [?!.,;:()-] *)
Definition isListedPunctuation (c : N) : bool :=
  (c =? 0x3F) || (c =? 0x21) || (c =? 0x2E) || (c =? 0x2C) || (c =? 0x3B)
  || (c =? 0x3A) || (c =? 0x28) || (c =? 0x29) || (c =? 0x2D).

(** The code points the class [[^\w\s\p{L}\p{N}?!.,;:()\-]] does not match. *)
Definition isKept (cp : N) : bool :=
  isWordChar cp || isWhiteSpace cp || isLetterOrNumber cp || isListedPunctuation cp.

(** [replace(/[^...]/gu, '')]: with the [u] flag the text is read code point
    by code point, a surrogate pair counting as one. *)
Fixpoint removeDisallowed (s : jsstring) : jsstring :=
  match s with
  | [] => []
  | c :: t =>
      match t with
      | d :: t' =>
          if isHighSurrogate c && isLowSurrogate d
          then (if isKept (codePointOfPair c d) then c :: d :: removeDisallowed t'
                else removeDisallowed t')
          else (if isKept c then c :: removeDisallowed t else removeDisallowed t)
      | [] => if isKept c then [c] else []
      end
  end.

(** [AIProcessor.cleanInput] *)
Definition cleanInput (text : jsstring) : jsstring :=
  removeDisallowed (collapseWhiteSpace false (trim text)).

End Hygiene.

Definition LF : N := 0x0A.

(** [replace(/\n{3,}/g, '\n\n')]: a maximal run of [run] line feeds is
    written back as two when it has three or more, unchanged otherwise. *)
Definition emitLineFeeds (run : nat) : jsstring :=
  replicate (if (3 <=? run)%nat then 2%nat else run) LF.

Fixpoint replaceLineFeedRuns (run : nat) (s : jsstring) : jsstring :=
  match s with
  | [] => emitLineFeeds run
  | c :: t =>
      if c =? LF then replaceLineFeedRuns (S run) t
      else emitLineFeeds run ++ c :: replaceLineFeedRuns 0 t
  end.

Definition threeLineFeeds : jsstring := [LF; LF; LF].

(** [AIProcessor.cleanOutput] *)
Definition cleanOutput (text : jsstring) : jsstring :=
  replaceLineFeedRuns 0 (trim text).

(** The output rule as the specification words it: a run of three or more
    blank lines (four or more line feeds in a row) becomes a single blank
    line (two line feeds); shorter runs stay. *)
Definition emitBlankLines_spec (run : nat) : jsstring :=
  replicate (if (4 <=? run)%nat then 2%nat else run) LF.

Fixpoint collapseBlankLines_spec (run : nat) (s : jsstring) : jsstring :=
  match s with
  | [] => emitBlankLines_spec run
  | c :: t =>
      if c =? LF then collapseBlankLines_spec (S run) t
      else emitBlankLines_spec run ++ c :: collapseBlankLines_spec 0 t
  end.

Definition cleanOutput_spec (text : jsstring) : jsstring :=
  collapseBlankLines_spec 0 (trim text).

(** ** Thrown values and settled promises *)

(** What the handlers read from a caught value that is neither [null] nor
    [undefined]: [error.message], [error.response?.data?.error?.message],
    [error.response?.data?.message] ([None] when undefined) and
    [String(error)]. *)
Record JsError := {
  err_message : option jsstring;
  err_response_data_error_message : option jsstring;
  err_response_data_message : option jsstring;
  err_toString : jsstring
}.

Inductive Nullish := JsNull | JsUndefined.

Inductive JsThrown :=
| ThrownNullish (n : Nullish)
| ThrownObject (e : JsError).

(** The outcome of a call, or of an awaited promise: a value, or a thrown
    value (a rejection reason). *)
Inductive Completion (A : Type) :=
| Normal (a : A)
| Abrupt (t : JsThrown).
Arguments Normal {A} a.
Arguments Abrupt {A} t.

(** Reading property [prop] of [null] or [undefined] throws a TypeError
    (the wording is V8's). *)
Definition nullishName (n : Nullish) : jsstring :=
  match n with JsNull => js "null" | JsUndefined => js "undefined" end.

Definition typeErrorReading (n : Nullish) (prop : jsstring) : JsError :=
  let text := js "Cannot read properties of " ++ nullishName n
              ++ js " (reading '" ++ prop ++ js "')" in
  {| err_message := Some text;
     err_response_data_error_message := None;
     err_response_data_message := None;
     err_toString := js "TypeError: " ++ text |}.

(** [a || b] on a string-or-undefined [a]. *)
Definition orElse (a : option jsstring) (b : jsstring) : jsstring :=
  match a with
  | Some v => if truthy v then v else b
  | None => b
  end.

(** ** Collaborators *)

Inductive Role := user | assistant.

Record ChatMessage := { role : Role; content : jsstring }.

Record CommandResult := { result_message : jsstring; result_success : bool }.

(** [SolanaCommandHandler]: the recognizer is a plain call, the executor
    returns a promise. *)
Record SolanaCommandHandler := {
  isSolanaCommand : jsstring -> Completion bool;
  handleCommand : jsstring -> Completion CommandResult
}.

(** [SAPProtocol.recordTask(description, skillName, success)] returns a
    promise, which the processor chains with [.catch]. *)
Record SAPProtocol := {
  recordTask : jsstring -> jsstring -> bool -> Completion ()
}.

(** [AIModel.generateChat(systemPrompt, messages)] *)
Record AIModel := {
  generateChat : jsstring -> list ChatMessage -> Completion jsstring
}.

(** The calls a run of the processor makes on its collaborators, in order. *)
Inductive Call :=
| CallIsSolanaCommand (message : jsstring)
| CallHandleCommand (message : jsstring)
| CallRecordTask (description skillName : jsstring) (success : bool)
| CallGenerateChat (systemPrompt : jsstring) (messages : list ChatMessage).

(** A computation: the calls made so far and how it completed. *)
Definition Async (A : Type) : Type := list Call * Completion A.

#[global] Instance Async_ret : MRet Async := fun A a => ([], Normal a).

#[global] Instance Async_bind : MBind Async := fun A B k m =>
  match m with
  | (calls, Normal a) => let '(calls', r) := k a in (calls ++ calls', r)
  | (calls, Abrupt t) => (calls, Abrupt t)
  end.

(** A call on a collaborator, with the outcome the collaborator gives. *)
Definition invoke {A} (c : Call) (outcome : Completion A) : Async A := ([c], outcome).

(** A step of the processor itself that may throw. *)
Definition complete {A} (outcome : Completion A) : Async A := ([], outcome).

(** [try { body } catch (error) { handler }] *)
Definition tryCatch {A} (body : Async A) (handler : JsThrown -> Async A) : Async A :=
  match body with
  | (calls, Normal a) => (calls, Normal a)
  | (calls, Abrupt t) => let '(calls', r) := handler t in (calls ++ calls', r)
  end.

(** [promise.catch(() => {})] *)
Definition catchIgnore (m : Async ()) : Async () := (m.1, Normal ()).

Definition calls {A} (m : Async A) : list Call := m.1.
Definition outcome {A} (m : Async A) : Completion A := m.2.

(** ** The processor *)

Record ProcessorConfig := {
  cfg_maxInputLength : option Z;
  cfg_systemPrompt : option jsstring;
  cfg_enableSolana : option bool;
  cfg_sapProtocol : option SAPProtocol
}.

Record AIProcessor := {
  model : AIModel;
  maxInputLength : Z;
  systemPrompt : jsstring;
  enableSolana : bool;
  sapProtocol : option SAPProtocol;
  solanaHandler : option SolanaCommandHandler;
  (** the text [buildSystemPrompt()] yields in the process environment *)
  buildSystemPrompt : jsstring
}.

(** The constructor: defaults first, the caller's fields over them.
    [newModel] and [newHandler] are the objects [new AIModel(..)] and
    [new SolanaCommandHandler(..)] yield. *)
Definition newAIProcessor (newModel : AIModel) (newHandler : SolanaCommandHandler)
    (builtPrompt : jsstring) (config : ProcessorConfig) : AIProcessor :=
  let enable := default false (cfg_enableSolana config) in
  {| model := newModel;
     maxInputLength := default 2000%Z (cfg_maxInputLength config);
     systemPrompt := default builtPrompt (cfg_systemPrompt config);
     enableSolana := enable;
     sapProtocol := cfg_sapProtocol config;
     solanaHandler := if enable then Some newHandler else None;
     buildSystemPrompt := builtPrompt |}.

Definition emptyInputGuidance : jsstring :=
  js "Пожалуйста, отправьте непустое сообщение.".

Definition lengthGuidance (limit : Z) : jsstring :=
  js "Сообщение слишком длинное. Максимум " ++ ofZ limit ++ js " символов.".

Definition commandErrorPrefix : jsstring := js "Ошибка выполнения Solana команды: ".

(** The template's [${error.message}]. *)
Definition errorMessageText (error : JsThrown) : Completion jsstring :=
  match error with
  | ThrownNullish n => Abrupt (ThrownObject (typeErrorReading n (js "message")))
  | ThrownObject e => Normal (default (js "undefined") (err_message e))
  end.

(** [error.response?.data?.error?.message || error.response?.data?.message
     || error.message || String(error)] *)
Definition errorDetail (error : JsThrown) : Completion jsstring :=
  match error with
  | ThrownNullish n => Abrupt (ThrownObject (typeErrorReading n (js "response")))
  | ThrownObject e =>
      Normal (orElse (err_response_data_error_message e)
               (orElse (err_response_data_message e)
                 (orElse (err_message e) (err_toString e))))
  end.

(** [array.slice(-n)] *)
Definition sliceLast {A} (n : nat) (l : list A) : list A := drop (length l - n) l.

Section Processor.
Context {U : UnicodeTables}.

(** The [try] block of the command branch. *)
Definition commandPath (p : AIProcessor) (h : SolanaCommandHandler)
    (message : jsstring) : Async jsstring :=
  tryCatch
    (result ← invoke (CallHandleCommand message) (handleCommand h message);
     _ ← match sapProtocol p with
         | Some sap =>
             let skillName := detectSkillName message in
             if truthy skillName
             then
               let description := substring0 80 message in
               let success := result_success result in
               catchIgnore (invoke (CallRecordTask description skillName success)
                                   (recordTask sap description skillName success))
             else mret ()
         | None => mret ()
         end;
     mret (result_message result))
    (fun error =>
       text ← complete (errorMessageText error);
       mret (commandErrorPrefix ++ text)).

(** Everything after the command branch. *)
Definition completionPath (p : AIProcessor) (message : jsstring)
    (history : option (list ChatMessage)) : Async jsstring :=
  let cleanedMessage := cleanInput message in
  if negb (truthy cleanedMessage) then mret emptyInputGuidance
  else if (Z.of_nat (length cleanedMessage) >? maxInputLength p)%Z
  then mret (lengthGuidance (maxInputLength p))
  else
    let messages :=
      map (fun m => {| role := role m; content := content m |})
          (sliceLast 10 (default [] history))
      ++ [{| role := user; content := cleanedMessage |}] in
    tryCatch
      (let prompt := if truthy (systemPrompt p) then systemPrompt p
                     else buildSystemPrompt p in
       response ← invoke (CallGenerateChat prompt messages)
                         (generateChat (model p) prompt messages);
       mret (cleanOutput response))
      (fun error =>
         detail ← complete (errorDetail error);
         mret (js "Error: " ++ detail)).

(** [AIProcessor.processMessage] *)
Definition processMessage (p : AIProcessor) (message : jsstring)
    (history : option (list ChatMessage)) : Async jsstring :=
  match solanaHandler p with
  | Some h =>
      recognized ← invoke (CallIsSolanaCommand message) (isSolanaCommand h message);
      if recognized : bool then commandPath p h message
      else completionPath p message history
  | None => completionPath p message history
  end.

End Processor.

(** ** More string operations *)

(** [replace(/\s+/g, replacement)]: every maximal run of white space becomes
    [replacement].  [inRun] tells that the previous unit was white space. *)
Fixpoint replaceWhiteSpaceRuns (replacement : jsstring) (inRun : bool) (s : jsstring)
    : jsstring :=
  match s with
  | [] => []
  | c :: t =>
      if isWhiteSpace c
      then (if inRun then replaceWhiteSpaceRuns replacement true t
            else replacement ++ replaceWhiteSpaceRuns replacement true t)
      else c :: replaceWhiteSpaceRuns replacement false t
  end.

(** The text begins, or ends, with a white-space unit. *)
Definition leadingWhiteSpace (s : jsstring) : bool :=
  match head s with Some c => isWhiteSpace c | None => false end.

Definition trailingWhiteSpace (s : jsstring) : bool :=
  match last s with Some c => isWhiteSpace c | None => false end.

(** The text neither begins nor ends with white space. *)
Definition isTrimmed (s : jsstring) : Prop :=
  leadingWhiteSpace s = false ∧ trailingWhiteSpace s = false.

(** [value || fallback] on a string that may be undefined. *)
Definition orDefault (value : option jsstring) (fallback : jsstring) : jsstring :=
  match value with
  | Some v => if truthy v then v else fallback
  | None => fallback
  end.

(** Truthiness of a string that may be undefined. *)
Definition truthyOption (value : option jsstring) : bool :=
  match value with Some v => truthy v | None => false end.

(** ** Agent profiles *)

Record AgentCapability := {
  cap_name : jsstring;
  cap_description : jsstring;
  cap_version : jsstring;
  cap_enabled : bool
}.

Inductive Currency := SOL | USDC.

Record Pricing := { pricePerTask : Q; currency : Currency }.

Record AgentProfile := {
  profile_id : N;
  profile_name : jsstring;
  profile_description : jsstring;
  profile_version : jsstring;
  publicKey : option jsstring;
  capabilities : list AgentCapability;
  reputation : Z;
  tasksCompleted : N;
  successRate : Q;
  pricing : option Pricing;
  createdAt : N;
  lastActive : N
}.

(** What a caller hands to [registerAgent]. *)
Record AgentData := {
  data_name : jsstring;
  data_description : jsstring;
  data_version : jsstring;
  data_publicKey : option jsstring;
  data_capabilities : list AgentCapability;
  data_reputation : Z;
  data_tasksCompleted : N;
  data_successRate : Q
}.

(** ** The agent registry *)

Module SAPRegistry.

(** Modelled from the spec: the registry class (src/agent-protocol/registry.ts)
    is not among the sources.  The record kept per agent is its profile and
    the running counts of recorded successes and failures. *)
Record AgentRecord := {
  profile : AgentProfile;
  successes : N;
  failures : N
}.

(** Modelled from the spec: the registry class is not among the sources.
    The mapping from agent id to record, and the id generator's next id. *)
Record Registry := {
  agents : gmap N AgentRecord;
  nextId : N
}.

(** Modelled from the spec: the registry at process start, with no agent. *)
Definition empty : Registry := {| agents := ∅; nextId := 1 |}.

(** Modelled from the spec: [registerAgent] of the missing registry class.
    A fresh id, [createdAt = lastActive = now], the profile stored, the id
    returned; a validation error ([None]) when name or version is empty. *)
Definition registerAgent (reg : Registry) (now : N) (data : AgentData)
    : Registry * option N :=
  if negb (truthy (data_name data)) || negb (truthy (data_version data))
  then (reg, None)
  else
    let id := nextId reg in
    let p := {| profile_id := id;
                profile_name := data_name data;
                profile_description := data_description data;
                profile_version := data_version data;
                publicKey := data_publicKey data;
                capabilities := data_capabilities data;
                reputation := data_reputation data;
                tasksCompleted := data_tasksCompleted data;
                successRate := data_successRate data;
                pricing := None;
                createdAt := now;
                lastActive := now |} in
    ({| agents := <[id := {| profile := p; successes := 0; failures := 0 |}]> (agents reg);
        nextId := id + 1 |},
     Some id).

(** Modelled from the spec: [getAgent] of the missing registry class. *)
Definition getAgent (reg : Registry) (id : N) : option AgentProfile :=
  profile <$> agents reg !! id.

(** Modelled from the spec: clamping to an interval. *)
Definition clamp (lo hi v : Z) : Z := Z.max lo (Z.min hi v).

(** Modelled from the spec: the reputation step, +1 on success and -2 on
    failure, clamped to [0,100]. *)
Definition adjustReputation (r : Z) (success : bool) : Z :=
  clamp 0 100 (if success then r + 1 else r - 2)%Z.

(** Modelled from the spec: the success rate from the running counts,
    [100 * successes / (successes + failures)], as an exact rational. *)
Definition rate (s f : N) : Q :=
  (100 * inject_Z (Z.of_N s) / inject_Z (Z.of_N (s + f)))%Q.

(** Modelled from the spec: one recorded outcome applied to a record. *)
Definition recordOutcome (now : N) (success : bool) (r : AgentRecord) : AgentRecord :=
  let s := if success then successes r + 1 else successes r in
  let f := if success then failures r else failures r + 1 in
  let p := profile r in
  {| profile :=
       {| profile_id := profile_id p;
          profile_name := profile_name p;
          profile_description := profile_description p;
          profile_version := profile_version p;
          publicKey := publicKey p;
          capabilities := capabilities p;
          reputation := adjustReputation (reputation p) success;
          tasksCompleted := tasksCompleted p + 1;
          successRate := rate s f;
          pricing := pricing p;
          createdAt := createdAt p;
          lastActive := now |};
     successes := s;
     failures := f |}.

(** Modelled from the spec: [recordTask] of the missing registry class.
    Nothing happens for an unknown id. *)
Definition recordTask (reg : Registry) (now : N) (agentId : N)
    (description skillName : jsstring) (success : bool) : Registry :=
  match agents reg !! agentId with
  | None => reg
  | Some r =>
      {| agents := <[agentId := recordOutcome now success r]> (agents reg);
         nextId := nextId reg |}
  end.

(** Modelled from the spec: a sequence of [recordTask] calls on one agent,
    the clock advancing by one between calls. *)
Fixpoint recordTasks (reg : Registry) (now : N) (agentId : N)
    (outcomes : list bool) : Registry :=
  match outcomes with
  | [] => reg
  | success :: rest =>
      recordTasks (recordTask reg now agentId [] [] success) (now + 1) agentId rest
  end.

End SAPRegistry.

(** ** The profile manager *)

Module AgentProfileManager.

Import SAPRegistry.

(** The manager's two fields.  [profile] is the object [getAgent] handed
    out; the methods below read and write only that object. *)
Record Manager := {
  registry : Registry;
  profile : option AgentProfile
}.

Definition new (registry : Registry) : Manager :=
  {| registry := registry; profile := None |}.

Definition starterCapability (name description : string) : AgentCapability :=
  {| cap_name := js name; cap_description := js description;
     cap_version := js "1.0.0"; cap_enabled := true |}.

Definition starterCapabilities : list AgentCapability :=
  [ starterCapability "Solana Balance Check" "Check SOL and SPL token balances";
    starterCapability "Token Price Query" "Get real-time token prices via Jupiter";
    starterCapability "Transaction Analysis" "Analyze and format recent transactions";
    starterCapability "Network Status" "Check Solana network health";
    starterCapability "Natural Language Processing" "Understand and process user queries";
    starterCapability "Multi-Provider AI" "Support for Ollama, OpenAI, and local models" ].

(** [initialize(config)]; [walletPublic] is [process.env.AGENT_WALLET_PUBLIC].
    The result is the id, or [None] when registration is rejected. *)
Definition initialize (m : Manager) (now : N) (walletPublic : option jsstring)
    (name description version : jsstring) : Manager * option N :=
  let data := {| data_name := name;
                 data_description := description;
                 data_version := version;
                 data_publicKey := trim <$> walletPublic;
                 data_capabilities := starterCapabilities;
                 data_reputation := 0;
                 data_tasksCompleted := 0;
                 data_successRate := 100 |} in
  match registerAgent (registry m) now data with
  | (reg, Some agentId) =>
      ({| registry := reg; profile := getAgent reg agentId |}, Some agentId)
  | (reg, None) => ({| registry := reg; profile := profile m |}, None)
  end.

Definition withCapabilities (p : AgentProfile) (cs : list AgentCapability) : AgentProfile :=
  {| profile_id := profile_id p;
     profile_name := profile_name p;
     profile_description := profile_description p;
     profile_version := profile_version p;
     publicKey := publicKey p;
     capabilities := cs;
     reputation := reputation p;
     tasksCompleted := tasksCompleted p;
     successRate := successRate p;
     pricing := pricing p;
     createdAt := createdAt p;
     lastActive := lastActive p |}.

(** [addCapability(capability)] *)
Definition addCapability (m : Manager) (capability : AgentCapability) : Manager :=
  match profile m with
  | None => m
  | Some p =>
      {| registry := registry m;
         profile := Some (withCapabilities p (capabilities p ++ [capability])) |}
  end.

Definition setEnabled (c : AgentCapability) (enabled : bool) : AgentCapability :=
  {| cap_name := cap_name c; cap_description := cap_description c;
     cap_version := cap_version c; cap_enabled := enabled |}.

(** [capabilities.find(c => c.name === capabilityName)] followed by the
    assignment to the found element's [enabled]. *)
Fixpoint setFirstEnabled (capabilityName : jsstring) (enabled : bool)
    (cs : list AgentCapability) : list AgentCapability :=
  match cs with
  | [] => []
  | c :: rest =>
      if JsString.eqb (cap_name c) capabilityName
      then setEnabled c enabled :: rest
      else c :: setFirstEnabled capabilityName enabled rest
  end.

(** [toggleCapability(capabilityName, enabled)] *)
Definition toggleCapability (m : Manager) (capabilityName : jsstring)
    (enabled : bool) : Manager :=
  match profile m with
  | None => m
  | Some p =>
      {| registry := registry m;
         profile := Some (withCapabilities p
                            (setFirstEnabled capabilityName enabled (capabilities p))) |}
  end.

(** [getEnabledCapabilities()] *)
Definition getEnabledCapabilities (m : Manager) : list AgentCapability :=
  match profile m with
  | None => []
  | Some p => List.filter cap_enabled (capabilities p)
  end.

(** [capabilities.find(c => c.name === capabilityName)] *)
Definition findCapability (capabilityName : jsstring) (cs : list AgentCapability)
    : option AgentCapability :=
  List.find (λ c, JsString.eqb (cap_name c) capabilityName) cs.

(** What of a capability no method of the manager changes. *)
Definition capabilityIdentity (c : AgentCapability) : jsstring * jsstring * jsstring :=
  (cap_name c, cap_description c, cap_version c).

(** [getProfile()] *)
Definition getProfile (m : Manager) : option AgentProfile := profile m.

Definition withDescription (p : AgentProfile) (description : jsstring) : AgentProfile :=
  {| profile_id := profile_id p;
     profile_name := profile_name p;
     profile_description := description;
     profile_version := profile_version p;
     publicKey := publicKey p;
     capabilities := capabilities p;
     reputation := reputation p;
     tasksCompleted := tasksCompleted p;
     successRate := successRate p;
     pricing := pricing p;
     createdAt := createdAt p;
     lastActive := lastActive p |}.

(** [updateDescription(description)] *)
Definition updateDescription (m : Manager) (description : jsstring) : Manager :=
  match profile m with
  | None => m
  | Some p => {| registry := registry m; profile := Some (withDescription p description) |}
  end.

Definition withPricing (p : AgentProfile) (pr : Pricing) : AgentProfile :=
  {| profile_id := profile_id p;
     profile_name := profile_name p;
     profile_description := profile_description p;
     profile_version := profile_version p;
     publicKey := publicKey p;
     capabilities := capabilities p;
     reputation := reputation p;
     tasksCompleted := tasksCompleted p;
     successRate := successRate p;
     pricing := Some pr;
     createdAt := createdAt p;
     lastActive := lastActive p |}.

(** [setPricing(pricePerTask, currency)] *)
Definition setPricing (m : Manager) (price : Q) (cur : Currency) : Manager :=
  match profile m with
  | None => m
  | Some p =>
      {| registry := registry m;
         profile := Some (withPricing p {| pricePerTask := price; currency := cur |}) |}
  end.

(** The object [exportForOpenClaw()] builds. *)
Record OpenClawExport := {
  export_name : jsstring;
  export_version : jsstring;
  export_description : jsstring;
  export_author : jsstring;
  export_capabilities : list jsstring;
  export_agentId : N;
  export_solanaEnabled : bool;
  export_reputation : Z
}.

(** [exportForOpenClaw()]; [None] is the [null] of an uninitialized manager. *)
Definition exportForOpenClaw {U : UnicodeTables} (m : Manager) : option OpenClawExport :=
  match profile m with
  | None => None
  | Some p =>
      Some {| export_name :=
                replaceWhiteSpaceRuns (js "-") false (toLowerCase (profile_name p));
              export_version := profile_version p;
              export_description := profile_description p;
              export_author := js "Solana Agent Protocol";
              export_capabilities := map cap_name (getEnabledCapabilities m);
              export_agentId := profile_id p;
              export_solanaEnabled := true;
              export_reputation := reputation p |}
  end.

End AgentProfileManager.

(** ** Configuration *)

(** [parseFloat] and [parseInt(_, 10)], and the numbers they yield, are the
    engine's. *)
Class NumberParsing := {
  JsNumber : Type;
  parseFloat : jsstring -> JsNumber;
  parseInt10 : jsstring -> JsNumber
}.

(** An instance that keeps the text handed to the parser. *)
Definition unparsedNumbers : NumberParsing :=
  {| JsNumber := jsstring; parseFloat := fun s => s; parseInt10 := fun s => s |}.

Module Config.

Section WithNumbers.
Context {P : NumberParsing}.

Record AIModelConfig := {
  provider : jsstring;
  modelName : jsstring;
  apiKey : option jsstring;
  baseUrl : jsstring;
  temperature : JsNumber;
  maxTokens : JsNumber
}.

Record SolanaSettings := {
  solana_enabled : bool;
  solana_rpcUrl : option jsstring;
  solana_network : option jsstring
}.

Record SapSettings := {
  sap_enabled : bool;
  sap_agentName : jsstring;
  sap_agentDescription : jsstring;
  sap_agentVersion : jsstring
}.

Record TwitterSettings := {
  twitter_apiKey : jsstring;
  twitter_apiSecret : jsstring;
  twitter_accessToken : jsstring;
  twitter_accessSecret : jsstring;
  twitter_autoReply : bool;
  twitter_replyToMentions : bool
}.

Record WebSettings := {
  web_port : JsNumber;
  web_apiKey : option jsstring;
  web_enableCors : bool
}.

(** [BotConfig]; [mode] is whatever text the cast let through. *)
Record BotConfig := {
  mode : jsstring;
  ai : AIModelConfig;
  solana : option SolanaSettings;
  sap : option SapSettings;
  twitter : option TwitterSettings;
  web : option WebSettings
}.

(** [process.env]: the variables that are set, by name. *)
Definition Env : Type := gmap string jsstring.

(** The variable is set, to a text that is not empty. *)
Definition isSet (env : Env) (name : string) : Prop :=
  ∃ v, env !! name = Some v ∧ v ≠ [].

(** [process.env.X || fallback] *)
Definition envOr (env : Env) (name : string) (fallback : string) : jsstring :=
  orDefault (env !! name) (js fallback).

(** [process.env.X !== 'false'] *)
Definition envNotFalse (env : Env) (name : string) : bool :=
  negb (bool_decide (env !! name = Some (js "false"))).

(** [loadConfig()], as a function of the environment. *)
Definition loadConfig (env : Env) : BotConfig :=
  let mode := trim (envOr env "BOT_MODE" "web") in
  let aiProvider := trim (envOr env "AI_PROVIDER" "local") in
  let aiConfig :=
    {| provider := aiProvider;
       modelName :=
         trim (orDefault (env !! "AI_MODEL_NAME")
                 (if JsString.eqb aiProvider (js "openai") then js "gpt-4o-mini"
                  else if JsString.eqb aiProvider (js "ollama") then js "llama3"
                  else js "local"));
       apiKey := trim <$> env !! "OPENAI_API_KEY";
       baseUrl := trim (envOr env "OLLAMA_BASE_URL" "http://localhost:11434");
       temperature := parseFloat (trim (envOr env "AI_TEMPERATURE" "0.7"));
       maxTokens := parseInt10 (trim (envOr env "AI_MAX_TOKENS" "1000")) |} in
  let solanaConfig :=
    {| solana_enabled :=
         negb (JsString.eqb (trim (envOr env "SOLANA_ENABLED" "true")) (js "false"));
       solana_rpcUrl :=
         Some (trim (envOr env "SOLANA_RPC_URL" "https://api.mainnet-beta.solana.com"));
       solana_network := Some (trim (envOr env "SOLANA_NETWORK" "mainnet")) |} in
  let sapConfig :=
    {| sap_enabled :=
         negb (JsString.eqb (trim (envOr env "SAP_ENABLED" "true")) (js "false"));
       sap_agentName := trim (envOr env "SAP_AGENT_NAME" "Solana AI Agent");
       sap_agentDescription :=
         trim (envOr env "SAP_AGENT_DESCRIPTION"
                 "Advanced AI agent for Solana blockchain interactions");
       sap_agentVersion := trim (envOr env "SAP_AGENT_VERSION" "1.0.0") |} in
  let twitterConfig :=
    {| twitter_apiKey := envOr env "TWITTER_API_KEY" "";
       twitter_apiSecret := envOr env "TWITTER_API_SECRET" "";
       twitter_accessToken := envOr env "TWITTER_ACCESS_TOKEN" "";
       twitter_accessSecret := envOr env "TWITTER_ACCESS_SECRET" "";
       twitter_autoReply := envNotFalse env "TWITTER_AUTO_REPLY";
       twitter_replyToMentions := envNotFalse env "TWITTER_REPLY_MENTIONS" |} in
  let webConfig :=
    if JsString.eqb mode (js "web")
    then Some {| web_port := parseInt10 (envOr env "WEB_PORT" "3000");
                 web_apiKey := env !! "WEB_API_KEY";
                 web_enableCors := envNotFalse env "WEB_ENABLE_CORS" |}
    else None in
  {| mode := mode;
     ai := aiConfig;
     solana := Some solanaConfig;
     sap := Some sapConfig;
     twitter := Some twitterConfig;
     web := webConfig |}.

(** One [if (!value) errors.push(text)]. *)
Definition requireText (value : jsstring) (text : string) : list jsstring :=
  if truthy value then [] else [js text].

(** [validateConfig(config)] *)
Definition validateConfig (config : BotConfig) : list jsstring :=
  (if JsString.eqb (mode config) (js "twitter")
   then match twitter config with
        | Some t =>
            requireText (twitter_apiKey t) "TWITTER_API_KEY is required"
            ++ requireText (twitter_apiSecret t) "TWITTER_API_SECRET is required"
            ++ requireText (twitter_accessToken t) "TWITTER_ACCESS_TOKEN is required"
            ++ requireText (twitter_accessSecret t) "TWITTER_ACCESS_SECRET is required"
        | None => []
        end
   else [])
  ++ (if JsString.eqb (provider (ai config)) (js "openai")
         && negb (truthyOption (apiKey (ai config)))
      then [js "OPENAI_API_KEY is required when using OpenAI provider"]
      else []).

(** All the messages [validateConfig] can push, in the order it pushes them. *)
Definition allConfigErrors : list jsstring :=
  [ js "TWITTER_API_KEY is required";
    js "TWITTER_API_SECRET is required";
    js "TWITTER_ACCESS_TOKEN is required";
    js "TWITTER_ACCESS_SECRET is required";
    js "OPENAI_API_KEY is required when using OpenAI provider" ].

(** The test of [initApp] before it builds the registry front:
    [config.sap?.enabled && config.solana?.enabled]. *)
Definition wantsSapProtocol (config : BotConfig) : bool :=
  match sap config with
  | Some s =>
      sap_enabled s &&
      match solana config with
      | Some so => solana_enabled so
      | None => false
      end
  | None => false
  end.

End WithNumbers.

End Config.

(** ** The serverless entry point *)

Module ApiHandler.

(** The two module variables kept between invocations of a warm instance:
    [appHandler], and whether [initPromise] is set. *)
Record Warm (App : Type) := {
  appHandler : option App;
  initPromise : bool
}.
Arguments appHandler {App} _.
Arguments initPromise {App} _.

Definition cold {App} : Warm App := {| appHandler := None; initPromise := false |}.

(** What an invocation does with the response: hands the request to the
    application, or ends it with status 500. *)
Inductive Served (App : Type) :=
| Delegated (app : App)
| InitializationFailed.
Arguments Delegated {App} app.
Arguments InitializationFailed {App}.

(** One invocation of [handler], run to its end before the next one starts.
    [initApp] is how the initialization would settle if it were started now:
    with the application it assigns to [appHandler], or rejected.  The
    result also tells whether the initialization was started. *)
Definition handler {App} (initApp : Completion App) (st : Warm App)
    : Warm App * Served App * bool :=
  let started := negb (initPromise st) in
  let st1 :=
    if initPromise st then st
    else match initApp with
         | Normal app => {| appHandler := Some app; initPromise := true |}
         | Abrupt _ => {| appHandler := appHandler st; initPromise := false |}
         end in
  (st1,
   match appHandler st1 with
   | Some app => Delegated app
   | None => InitializationFailed
   end,
   started).

(** A sequence of invocations, one after another. *)
Fixpoint serve {App} (attempts : list (Completion App)) (st : Warm App)
    : list (Served App * bool) :=
  match attempts with
  | [] => []
  | initApp :: rest =>
      let '(st1, served, started) := handler initApp st in
      (served, started) :: serve rest st1
  end.

Definition succeeded {App} (c : Completion App) : bool :=
  match c with Normal _ => true | Abrupt _ => false end.

End ApiHandler.

(** ** Vocabulary of the statements *)

(** The four tags of the classifier. *)
Definition skillTags : list jsstring :=
  [js "Balance Checker"; js "Transaction Analyzer"; js "Price Monitor";
   js "Network Status"].

(** A call that reaches the command handler or the registry front. *)
Definition isCommandSideCall (c : Call) : bool :=
  match c with
  | CallGenerateChat _ _ => false
  | _ => true
  end.

(** The calls made before the branch on the recognizer's answer. *)
Definition recognizerCalls (p : AIProcessor) (message : jsstring) : list Call :=
  match solanaHandler p with
  | Some _ => [CallIsSolanaCommand message]
  | None => []
  end.

(** The calls of the recording step of the command branch. *)
Definition recordingCalls {U : UnicodeTables} (p : AIProcessor) (message : jsstring)
    (result : CommandResult) : list Call :=
  match sapProtocol p with
  | Some _ =>
      if truthy (detectSkillName message)
      then [CallRecordTask (substring0 80 message) (detectSkillName message)
              (result_success result)]
      else []
  | None => []
  end.

(** How many of the recorded outcomes are [b]. *)
Definition countOutcome (b : bool) (outcomes : list bool) : nat :=
  length (List.filter (Bool.eqb b) outcomes).

(** The prompt handed to the completion client:
    [this.config.systemPrompt || buildSystemPrompt()]. *)
Definition effectivePrompt (p : AIProcessor) : jsstring :=
  if truthy (systemPrompt p) then systemPrompt p else buildSystemPrompt p.

(** The [messages] array built on the completion branch. *)
Definition submittedMessages (history : option (list ChatMessage))
    (cleanedMessage : jsstring) : list ChatMessage :=
  map (fun m => {| role := role m; content := content m |})
      (sliceLast 10 (default [] history))
  ++ [{| role := user; content := cleanedMessage |}].

(** No command handler is configured, or its recognizer answers [false]. *)
Definition notRecognized (p : AIProcessor) (message : jsstring) : Prop :=
  ∀ h, solanaHandler p = Some h → isSolanaCommand h message = Normal false.


(** ** Concrete processors, used to run the definitions *)

Module Examples.

Definition boom : JsError :=
  {| err_message := Some (js "boom");
     err_response_data_error_message := None;
     err_response_data_message := None;
     err_toString := js "Error: boom" |}.

(** A completion client that always answers the same text. *)
Definition constantModel (answer : jsstring) : AIModel :=
  {| generateChat := fun _ _ => Normal answer |}.

(** A command handler that claims every message and reports a balance. *)
Definition eagerHandler : SolanaCommandHandler :=
  {| isSolanaCommand := fun _ => Normal true;
     handleCommand := fun _ =>
       Normal {| result_message := js "Balance: 1.5 SOL"; result_success := true |} |}.

(** A command handler that claims messages mentioning [sol] and fails on them. *)
Definition solHandler : SolanaCommandHandler :=
  {| isSolanaCommand := fun m => Normal (includes m (js "sol"));
     handleCommand := fun _ =>
       Normal {| result_message := js "RPC unavailable"; result_success := false |} |}.

(** A command handler that claims every message and whose executor rejects. *)
Definition failingHandler : SolanaCommandHandler :=
  {| isSolanaCommand := fun _ => Normal true;
     handleCommand := fun _ => Abrupt (ThrownObject boom) |}.


(** A registry front whose recording always rejects. *)
Definition failingProtocol : SAPProtocol :=
  {| recordTask := fun _ _ _ => Abrupt (ThrownObject boom) |}.

(** An HTTP client error carrying the API's own message. *)
Definition rateLimited : JsError :=
  {| err_message := Some (js "Request failed with status code 429");
     err_response_data_error_message := Some (js "Rate limit reached");
     err_response_data_message := None;
     err_toString := js "AxiosError: Request failed with status code 429" |}.

(** A completion client whose promise rejects with the given error. *)
Definition rejectingModel (e : JsError) : AIModel :=
  {| generateChat := fun _ _ => Abrupt (ThrownObject e) |}.

(** A completion client whose promise rejects with [null]. *)
Definition nullRejectingModel : AIModel :=
  {| generateChat := fun _ _ => Abrupt (ThrownNullish JsNull) |}.

Definition prompt : jsstring := js "You are Agent Registry AI".

Definition defaults : ProcessorConfig :=
  {| cfg_maxInputLength := None; cfg_systemPrompt := None;
     cfg_enableSolana := None; cfg_sapProtocol := None |}.

(** [new AIProcessor({modelConfig})] *)
Definition plainProcessor (answer : jsstring) : AIProcessor :=
  newAIProcessor (constantModel answer) eagerHandler prompt defaults.

(** [new AIProcessor({modelConfig, enableSolana: true, sapProtocol})] *)
Definition solanaProcessor (h : SolanaCommandHandler) (sap : option SAPProtocol)
    : AIProcessor :=
  newAIProcessor (constantModel (js "ok")) h prompt
    {| cfg_maxInputLength := None; cfg_systemPrompt := None;
       cfg_enableSolana := Some true; cfg_sapProtocol := sap |}.

(** [{modelConfig, systemPrompt, sapProtocol}]: a registry front, and no
    [enableSolana]. *)
Definition registryOnly : ProcessorConfig :=
  {| cfg_maxInputLength := None; cfg_systemPrompt := Some prompt;
     cfg_enableSolana := None; cfg_sapProtocol := Some failingProtocol |}.

Definition turn (r : Role) (text : string) : ChatMessage :=
  {| role := r; content := js text |}.

(** Twelve turns of history. *)
Definition longHistory : list ChatMessage :=
  [ turn user "1"; turn assistant "2"; turn user "3"; turn assistant "4";
    turn user "5"; turn assistant "6"; turn user "7"; turn assistant "8";
    turn user "9"; turn assistant "10"; turn user "11"; turn assistant "12" ].

(** A message of 2003 code units: 2001 spaces, then [hi]. *)
Definition paddedMessage : jsstring := replicate 2001 0x20 ++ js "hi".

(** A message of 2001 letters. *)
Definition longMessage : jsstring := replicate 2001 0x61.

(** Two lines with two blank lines between them. *)
Definition twoBlankLines : jsstring := js "a" ++ [LF; LF; LF] ++ js "b".

(** Two lines with three blank lines between them, and white space around. *)
Definition threeBlankLines : jsstring :=
  [0x20; LF] ++ js "a" ++ [LF; LF; LF; LF] ++ js "b" ++ [LF; 0x20].

(** An environment with a padded flag, a padded key and a blank mode. *)
Definition paddedEnv : gmap string jsstring :=
  {[ "SOLANA_ENABLED" := js " false ";
     "TWITTER_AUTO_REPLY" := js " false ";
     "OPENAI_API_KEY" := js "  sk-123 ";
     "BOT_MODE" := js "  " ]}.

(** A manager right after [initialize]. *)
Definition initialized : AgentProfileManager.Manager :=
  (AgentProfileManager.initialize (AgentProfileManager.new SAPRegistry.empty) 1000 None
     (js "Solana AI Agent") (js "Advanced AI agent") (js "1.0.0")).1.

(** What the profile manager registers. *)
Definition starterData : AgentData :=
  {| data_name := js "Solana AI Agent";
     data_description := js "Advanced AI agent";
     data_version := js "1.0.0";
     data_publicKey := None;
     data_capabilities := AgentProfileManager.starterCapabilities;
     data_reputation := 0;
     data_tasksCompleted := 0;
     data_successRate := 100 |}.

Definition capabilityX (name : string) (enabled : bool) : AgentCapability :=
  {| cap_name := js name; cap_description := js "";
     cap_version := js "1.0.0"; cap_enabled := enabled |}.

End Examples.

(** * Properties *)

(** ** Strings *)

Lemma startsWith_prefix (s sub : jsstring) :
  startsWith s sub = true ↔ sub `prefix_of` s.
Proof.
  revert s; induction sub as [|c sub IH]; intros s; simpl.
  - split; [intros _; apply prefix_nil | by destruct s].
  - destruct s as [|d s].
    + split; [discriminate | intros H; apply prefix_nil_inv in H; discriminate].
    + simpl. rewrite andb_true_iff, N.eqb_eq, IH. split.
      * intros [-> H]. by apply prefix_cons.
      * intros H. split; [by apply prefix_cons_inv_1 in H | by apply prefix_cons_inv_2 in H].
Qed.

(** [includes] is the substring test. *)
Lemma includes_spec (s sub : jsstring) :
  includes s sub = true ↔ ∃ pre post, s = pre ++ sub ++ post.
Proof.
  induction s as [|d s IH].
  - change (includes [] sub) with (startsWith [] sub || false).
    rewrite orb_false_r, startsWith_prefix. split.
    + intros [post ->]. by exists [], post.
    + intros (pre & post & H). symmetry in H.
      apply app_eq_nil in H as [-> H]. apply app_eq_nil in H as [-> _].
      apply prefix_nil.
  - change (includes (d :: s) sub) with (startsWith (d :: s) sub || includes s sub).
    rewrite orb_true_iff, startsWith_prefix, IH. split.
    + intros [[post ->] | (pre & post & ->)].
      * by exists [], post.
      * by exists (d :: pre), post.
    + intros (pre & post & H). destruct pre as [|e pre]; simpl in H.
      * left. exists post. exact H.
      * right. injection H as -> ->. by exists pre, post.
Qed.

(** ** The classifier *)

Section ClassifierFacts.
Context {U : UnicodeTables}.

Lemma find_first_match {A} (f : A → bool) (l : list A) :
  match find f l with
  | Some x => ∃ i, l !! i = Some x ∧ f x = true
                   ∧ ∀ j y, (j < i)%nat → l !! j = Some y → f y = false
  | None => ∀ y, y ∈ l → f y = false
  end.
Proof.
  induction l as [|a l IH]; simpl.
  - intros y Hy. by apply elem_of_nil in Hy.
  - destruct (f a) eqn:Ha.
    + exists 0%nat. repeat split; [exact Ha | intros j y Hj; lia].
    + destruct (find f l) as [x|].
      * destruct IH as (i & Hi & Hx & Hbefore). exists (S i). repeat split; try done.
        intros [|j] y Hj Hy; simpl in Hy; [by injection Hy as <- | apply (Hbefore j); [lia | done]].
      * intros y Hy. apply elem_of_cons in Hy as [-> | Hy]; [done | by apply IH].
Qed.

Lemma detectSkillName_table (message : jsstring) :
  detectSkillName message = firstMatchingTag skillRules (toLowerCase message).
Proof.
  unfold detectSkillName, firstMatchingTag, skillRules.
  generalize (toLowerCase message); intros lower.
  cbn [find ruleMatches existsb keywords tag balanceRule transactionRule priceRule networkRule].
  rewrite !orb_false_r, !orb_assoc.
  repeat match goal with
         | |- context [if ?b then _ else _] => destruct b; try reflexivity
         end.
Qed.

(** C1: the tag returned for a message is the tag of the first rule, in the
    order balance, transaction, price, network, one of whose keywords occurs
    in the lower-cased message, and the empty tag when no rule has one; in
    particular a message matching both the balance rule and the price rule
    is tagged [Balance Checker]. *)
Theorem detectSkillName_first_match (message : jsstring) :
  let lower := toLowerCase message in
  detectSkillName message = firstMatchingTag skillRules lower
  ∧ ((∃ i r, skillRules !! i = Some r ∧ ruleMatches lower r = true
             ∧ (∀ j r', (j < i)%nat → skillRules !! j = Some r' → ruleMatches lower r' = false)
             ∧ detectSkillName message = tag r)
     ∨ ((∀ r, r ∈ skillRules → ruleMatches lower r = false)
        ∧ detectSkillName message = js ""))
  ∧ (ruleMatches lower balanceRule = true → ruleMatches lower priceRule = true →
     detectSkillName message = js "Balance Checker").
Proof.
  intros lower. pose proof (detectSkillName_table message) as Htable.
  fold lower in Htable. split; [exact Htable | split].
  - rewrite Htable. unfold firstMatchingTag.
    pose proof (find_first_match (ruleMatches lower) skillRules) as Hfind.
    destruct (find (ruleMatches lower) skillRules) as [r|].
    + left. destruct Hfind as (i & Hi & Hr & Hbefore). by exists i, r.
    + right. by split.
  - intros Hbalance _. rewrite Htable. unfold firstMatchingTag, skillRules.
    cbn [find]. by rewrite Hbalance.
Qed.

End ClassifierFacts.

Lemma detectSkillName_first_match_witness :
  let message := js "What is the PRICE of my Wallet?" in
  let lower := @toLowerCase BasicUnicode.tables message in
  ruleMatches lower balanceRule = true ∧ ruleMatches lower priceRule = true
  ∧ @detectSkillName BasicUnicode.tables message = js "Balance Checker".
Proof.
  intros message lower.
  assert (Hb : ruleMatches lower balanceRule = true) by (vm_compute; reflexivity).
  assert (Hp : ruleMatches lower priceRule = true) by (vm_compute; reflexivity).
  refine (conj Hb (conj Hp _)).
  exact (proj2 (proj2 (@detectSkillName_first_match BasicUnicode.tables message)) Hb Hp).
Defined.

(** ** The command branch *)

Section CommandPathFacts.
Context {U : UnicodeTables}.

Lemma processMessage_recognized p h message history :
  solanaHandler p = Some h → isSolanaCommand h message = Normal true →
  processMessage p message history =
    (CallIsSolanaCommand message :: calls (commandPath p h message),
     outcome (commandPath p h message)).
Proof.
  intros Hh Hrec. unfold processMessage. rewrite Hh, Hrec.
  cbn [mbind Async_bind invoke]. by destruct (commandPath p h message).
Qed.

Lemma processMessage_not_recognized p message history :
  notRecognized p message →
  processMessage p message history =
    (recognizerCalls p message ++ calls (completionPath p message history),
     outcome (completionPath p message history)).
Proof.
  intros Hnot. unfold processMessage, recognizerCalls.
  destruct (solanaHandler p) as [h|] eqn:Hh.
  - rewrite (Hnot h Hh). cbn [mbind Async_bind invoke].
    by destruct (completionPath p message history).
  - by destruct (completionPath p message history).
Qed.

Lemma commandPath_fulfilled p h message result :
  handleCommand h message = Normal result →
  commandPath p h message =
    (CallHandleCommand message :: recordingCalls p message result,
     Normal (result_message result)).
Proof.
  intros Hres. unfold commandPath, recordingCalls. rewrite Hres.
  cbn [mbind Async_bind invoke].
  destruct (sapProtocol p) as [sap|]; [destruct (truthy (detectSkillName message))|];
    reflexivity.
Qed.

Lemma commandPath_rejected p h message error :
  handleCommand h message = Abrupt error →
  commandPath p h message =
    ([CallHandleCommand message],
     match errorMessageText error with
     | Normal text => Normal (commandErrorPrefix ++ text)
     | Abrupt t => Abrupt t
     end).
Proof.
  intros Hres. unfold commandPath. rewrite Hres.
  cbn [mbind Async_bind invoke tryCatch complete].
  destruct (errorMessageText error); reflexivity.
Qed.

Lemma commandErrorPrefix_head text :
  head (commandErrorPrefix ++ text) = Some 0x41E.
Proof. reflexivity. Qed.

Lemma emptyInputGuidance_head : head emptyInputGuidance = Some 0x41F.
Proof. reflexivity. Qed.

Lemma lengthGuidance_head limit : head (lengthGuidance limit) = Some 0x421.
Proof. reflexivity. Qed.

Lemma commandError_not_guidance text :
  commandErrorPrefix ++ text ≠ emptyInputGuidance
  ∧ ∀ limit, commandErrorPrefix ++ text ≠ lengthGuidance limit.
Proof.
  split; [|intros limit]; intros H; apply (f_equal head) in H;
    rewrite commandErrorPrefix_head in H.
  - rewrite emptyInputGuidance_head in H. discriminate.
  - rewrite lengthGuidance_head in H. discriminate.
Qed.

(** C2, as the code has it: on the command branch, when the executor
    returns a result, the response is the result's message, whatever the
    recording promise settles to; and when a registry front is configured
    and the classifier gives a non-empty tag for the original message,
    [recordTask] is called once, after the executor, with the first 80
    code units of the message, that tag and the result's success flag. *)
Theorem command_result_survives_recording p h message history result :
  solanaHandler p = Some h →
  isSolanaCommand h message = Normal true →
  handleCommand h message = Normal result →
  outcome (processMessage p message history) = Normal (result_message result)
  ∧ ∀ sap, sapProtocol p = Some sap → truthy (detectSkillName message) = true →
      calls (processMessage p message history) =
        [CallIsSolanaCommand message; CallHandleCommand message;
         CallRecordTask (substring0 80 message) (detectSkillName message)
           (result_success result)]
      ∧ (length (substring0 80 message) ≤ 80)%nat
      ∧ substring0 80 message `prefix_of` message.
Proof.
  intros Hh Hrec Hres.
  rewrite (processMessage_recognized p h message history Hh Hrec).
  rewrite (commandPath_fulfilled p h message result Hres).
  split; [reflexivity|]. intros sap Hsap Htag.
  unfold calls, recordingCalls. cbn [fst]. rewrite Hsap, Htag.
  split; [reflexivity|]. unfold substring0. split.
  - rewrite length_take. lia.
  - apply prefix_take.
Qed.

(** C10: a message the recognizer claims is executed before any hygiene:
    the executor is called on the original message, the completion client
    is not called, the response is the result's message when the executor
    returns one, and the error text, which is neither guidance message,
    when it rejects.  Nothing is asked of the message: padded with white
    space, empty after cleaning or longer than the limit, it is executed
    all the same. *)
Theorem command_path_precedes_hygiene p h message history :
  solanaHandler p = Some h →
  isSolanaCommand h message = Normal true →
  take 2 (calls (processMessage p message history)) =
    [CallIsSolanaCommand message; CallHandleCommand message]
  ∧ (∀ prompt messages,
       CallGenerateChat prompt messages ∉ calls (processMessage p message history))
  ∧ (∀ result, handleCommand h message = Normal result →
       outcome (processMessage p message history) = Normal (result_message result))
  ∧ (∀ e, handleCommand h message = Abrupt (ThrownObject e) →
       let text := commandErrorPrefix ++ default (js "undefined") (err_message e) in
       outcome (processMessage p message history) = Normal text
       ∧ text ≠ emptyInputGuidance
       ∧ ∀ limit, text ≠ lengthGuidance limit).
Proof.
  intros Hh Hrec.
  rewrite (processMessage_recognized p h message history Hh Hrec).
  destruct (handleCommand h message) as [result|error] eqn:Hres.
  - rewrite (commandPath_fulfilled p h message result Hres).
    unfold calls, outcome. cbn [fst snd]. repeat split.
    + intros prompt messages Hin. unfold recordingCalls in Hin.
      apply elem_of_cons in Hin as [Hin|Hin]; [discriminate|].
      apply elem_of_cons in Hin as [Hin|Hin]; [discriminate|].
      destruct (sapProtocol p); [destruct (truthy (detectSkillName message))|];
        [apply elem_of_cons in Hin as [Hin|Hin]; [discriminate|] | |];
        by apply elem_of_nil in Hin.
    + intros r [= <-]. reflexivity.
    + discriminate.
    + discriminate.
    + discriminate.
  - rewrite (commandPath_rejected p h message error Hres).
    unfold calls, outcome. cbn [fst snd]. repeat split.
    + intros prompt messages Hin.
      apply elem_of_cons in Hin as [Hin|Hin]; [discriminate|].
      apply elem_of_cons in Hin as [Hin|Hin]; [discriminate|].
      by apply elem_of_nil in Hin.
    + discriminate.
    + injection H as ->. reflexivity.
    + apply commandError_not_guidance.
    + apply commandError_not_guidance.
Qed.

End CommandPathFacts.

Lemma command_result_survives_recording_witness :
  let p := Examples.solanaProcessor Examples.solHandler (Some Examples.failingProtocol) in
  let message := js "sol balance" in
  let result := {| result_message := js "RPC unavailable"; result_success := false |} in
  solanaHandler p = Some Examples.solHandler
  ∧ isSolanaCommand Examples.solHandler message = Normal true
  ∧ handleCommand Examples.solHandler message = Normal result
  ∧ sapProtocol p = Some Examples.failingProtocol
  ∧ truthy (@detectSkillName BasicUnicode.tables message) = true
  ∧ outcome (@processMessage BasicUnicode.tables p message None)
    = Normal (js "RPC unavailable")
  ∧ calls (@processMessage BasicUnicode.tables p message None)
    = [CallIsSolanaCommand message; CallHandleCommand message;
       CallRecordTask message (js "Balance Checker") false].
Proof.
  intros p message result.
  assert (H1 : solanaHandler p = Some Examples.solHandler) by reflexivity.
  assert (H2 : isSolanaCommand Examples.solHandler message = Normal true)
    by (vm_compute; reflexivity).
  assert (H3 : handleCommand Examples.solHandler message = Normal result) by reflexivity.
  assert (H4 : sapProtocol p = Some Examples.failingProtocol) by reflexivity.
  assert (H5 : truthy (@detectSkillName BasicUnicode.tables message) = true)
    by (vm_compute; reflexivity).
  destruct (@command_result_survives_recording BasicUnicode.tables
              p Examples.solHandler message None result H1 H2 H3) as [Hout Hrecord].
  destruct (Hrecord Examples.failingProtocol H4 H5) as (Hcalls & _ & _).
  refine (conj H1 (conj H2 (conj H3 (conj H4 (conj H5 (conj Hout _)))))).
  rewrite Hcalls. vm_compute. reflexivity.
Defined.

(** C2 as worded fails without a registry front: the command is executed,
    the classifier tags the message, and no [recordTask] call is made. *)
Lemma recording_without_registry_counterexample :
  let p := Examples.solanaProcessor Examples.eagerHandler None in
  let message := js "my balance" in
  isSolanaCommand Examples.eagerHandler message = Normal true
  ∧ @detectSkillName BasicUnicode.tables message = js "Balance Checker"
  ∧ @processMessage BasicUnicode.tables p message None
    = ([CallIsSolanaCommand message; CallHandleCommand message],
       Normal (js "Balance: 1.5 SOL"))
  ∧ ¬ ∃ description skillName success,
        CallRecordTask description skillName success
        ∈ calls (@processMessage BasicUnicode.tables p message None).
Proof.
  intros p message.
  split; [reflexivity|]. split; [vm_compute; reflexivity|].
  split; [vm_compute; reflexivity|].
  intros (d & sk & b & Hin). vm_compute in Hin.
  apply elem_of_cons in Hin as [Hin|Hin]; [discriminate|].
  apply elem_of_cons in Hin as [Hin|Hin]; [discriminate|].
  by apply elem_of_nil in Hin.
Qed.

Lemma command_path_precedes_hygiene_witness :
  let p := Examples.solanaProcessor Examples.eagerHandler None in
  let message := Examples.paddedMessage in
  solanaHandler p = Some Examples.eagerHandler
  ∧ isSolanaCommand Examples.eagerHandler message = Normal true
  ∧ (maxInputLength p < Z.of_nat (length message))%Z
  ∧ outcome (@processMessage BasicUnicode.tables p message None)
    = Normal (js "Balance: 1.5 SOL").
Proof.
  intros p message.
  assert (H1 : solanaHandler p = Some Examples.eagerHandler) by reflexivity.
  assert (H2 : isSolanaCommand Examples.eagerHandler message = Normal true) by reflexivity.
  refine (conj H1 (conj H2 (conj _ _))); [vm_compute; reflexivity|].
  exact (proj1 (proj2 (proj2 (@command_path_precedes_hygiene BasicUnicode.tables
                                p Examples.eagerHandler message None H1 H2)))
           _ eq_refl).
Defined.

(** ** Hygiene *)

Lemma trimStart_blank (s : jsstring) :
  Forall (λ c, isWhiteSpace c = true) s → trimStart s = [].
Proof.
  induction 1 as [|c s Hc _ IH]; [reflexivity|].
  cbn [trimStart]. by rewrite Hc.
Qed.

Lemma trim_blank (s : jsstring) :
  Forall (λ c, isWhiteSpace c = true) s → trim s = [].
Proof. intros H. unfold trim. by rewrite (trimStart_blank s H). Qed.

Lemma cleanInput_blank {U : UnicodeTables} (s : jsstring) :
  Forall (λ c, isWhiteSpace c = true) s → cleanInput s = [].
Proof. intros H. unfold cleanInput. by rewrite (trim_blank s H). Qed.

Lemma emitLineFeeds_small (n : nat) : (n ≤ 2)%nat → emitLineFeeds n = replicate n LF.
Proof.
  intros Hn. unfold emitLineFeeds.
  destruct (3 <=? n)%nat eqn:E; [apply Nat.leb_le in E; lia | reflexivity].
Qed.

Lemma emitLineFeeds_large (n : nat) : (3 ≤ n)%nat → emitLineFeeds n = [LF; LF].
Proof.
  intros Hn. unfold emitLineFeeds.
  destruct (3 <=? n)%nat eqn:E; [reflexivity | apply Nat.leb_gt in E; lia].
Qed.

Lemma emitLineFeeds_length (n : nat) : (length (emitLineFeeds n) ≤ 2)%nat.
Proof.
  unfold emitLineFeeds. rewrite length_replicate.
  destruct (3 <=? n)%nat eqn:E; [lia | apply Nat.leb_gt in E; lia].
Qed.

(** A maximal run of [k] line feeds, after [n] already read and before a
    unit that is not a line feed, is written as two line feeds when
    [n + k] is three or more, and as it is otherwise. *)
Lemma replaceLineFeedRuns_run (n k : nat) (c : N) (t : jsstring) :
  c ≠ LF →
  replaceLineFeedRuns n (replicate k LF ++ c :: t)
  = emitLineFeeds (n + k) ++ c :: replaceLineFeedRuns 0 t.
Proof.
  intros Hc. revert n. induction k as [|k IH]; intros n.
  - cbn [replicate app replaceLineFeedRuns].
    apply N.eqb_neq in Hc. rewrite Hc. by rewrite Nat.add_0_r.
  - cbn [replicate app replaceLineFeedRuns]. rewrite N.eqb_refl, IH.
    by replace (S n + k)%nat with (n + S k)%nat by lia.
Qed.

Lemma replaceLineFeedRuns_end (n k : nat) :
  replaceLineFeedRuns n (replicate k LF) = emitLineFeeds (n + k).
Proof.
  revert n. induction k as [|k IH]; intros n.
  - cbn [replicate replaceLineFeedRuns]. by rewrite Nat.add_0_r.
  - cbn [replicate replaceLineFeedRuns]. rewrite N.eqb_refl, IH.
    by replace (S n + k)%nat with (n + S k)%nat by lia.
Qed.

Lemma includes_after_short_run (j : nat) (c : N) (t : jsstring) :
  (j ≤ 2)%nat → c ≠ LF →
  includes (replicate j LF ++ c :: t) threeLineFeeds = includes t threeLineFeeds.
Proof.
  intros Hj Hc. apply N.eqb_neq in Hc.
  assert (Hc' : (LF =? c) = false) by (rewrite N.eqb_sym; exact Hc).
  destruct j as [|[|[|j]]]; [| | |lia];
    cbn [replicate app includes startsWith threeLineFeeds];
    rewrite ?N.eqb_refl, ?Hc', ?andb_false_r; cbn [andb orb]; reflexivity.
Qed.

Lemma includes_short_run (j : nat) :
  (j ≤ 2)%nat → includes (replicate j LF) threeLineFeeds = false.
Proof. intros Hj. destruct j as [|[|[|j]]]; [reflexivity..|lia]. Qed.

(** The output never holds three line feeds in a row. *)
Lemma replaceLineFeedRuns_no_triple (n : nat) (s : jsstring) :
  includes (replaceLineFeedRuns n s) threeLineFeeds = false.
Proof.
  revert n. induction s as [|c t IH]; intros n.
  - cbn [replaceLineFeedRuns]. unfold emitLineFeeds.
    apply includes_short_run. destruct (3 <=? n)%nat eqn:E; [lia|].
    apply Nat.leb_gt in E. lia.
  - cbn [replaceLineFeedRuns]. destruct (c =? LF) eqn:Hc; [apply IH|].
    apply N.eqb_neq in Hc. unfold emitLineFeeds.
    rewrite includes_after_short_run; [apply IH | | exact Hc].
    destruct (3 <=? n)%nat eqn:E; [lia|]. apply Nat.leb_gt in E. lia.
Qed.

Lemma includes_app_r (a b sub : jsstring) :
  includes (a ++ b) sub = false → includes b sub = false.
Proof.
  intros H. destruct (includes b sub) eqn:Hb; [|reflexivity].
  apply includes_spec in Hb as (pre & post & ->).
  assert (Hin : includes (a ++ pre ++ sub ++ post) sub = true).
  { apply includes_spec. exists (a ++ pre), post. by rewrite <- !app_assoc. }
  congruence.
Qed.

Lemma includes_long_run (n : nat) (s : jsstring) :
  includes (replicate n LF ++ s) threeLineFeeds = false → (n ≤ 2)%nat.
Proof.
  intros H. destruct (decide (n ≤ 2)%nat) as [|Hn]; [done|].
  assert (Hin : includes (replicate n LF ++ s) threeLineFeeds = true); [|congruence].
  apply includes_spec. exists [], (replicate (n - 3) LF ++ s).
  replace n with (3 + (n - 3))%nat at 1 by lia. reflexivity.
Qed.

(** A text without three line feeds in a row is left as it is. *)
Lemma replaceLineFeedRuns_unchanged (n : nat) (s : jsstring) :
  includes (replicate n LF ++ s) threeLineFeeds = false →
  replaceLineFeedRuns n s = replicate n LF ++ s.
Proof.
  revert n. induction s as [|c t IH]; intros n H.
  - cbn [replaceLineFeedRuns]. rewrite app_nil_r.
    apply emitLineFeeds_small. by apply (includes_long_run n []).
  - cbn [replaceLineFeedRuns]. destruct (c =? LF) eqn:Hc.
    + apply N.eqb_eq in Hc. subst c.
      assert (E : replicate n LF ++ LF :: t = replicate (S n) LF ++ t)
        by (by rewrite replicate_S_end, <- app_assoc).
      rewrite E in H |- *. by apply IH.
    + rewrite emitLineFeeds_small by (by apply (includes_long_run n (c :: t))).
      rewrite (IH 0%nat); [reflexivity|].
      apply (includes_app_r (replicate n LF ++ [c])). by rewrite <- app_assoc.
Qed.

Lemma map_copy_turns (l : list ChatMessage) :
  map (λ m, {| role := role m; content := content m |}) l = l.
Proof. induction l as [|[r c] l IH]; [reflexivity|]. cbn. by rewrite IH. Qed.

Lemma sliceLast_length {A} (n : nat) (l : list A) : (length (sliceLast n l) ≤ n)%nat.
Proof. unfold sliceLast. rewrite length_drop. lia. Qed.

Lemma sliceLast_split {A} (n : nat) (l : list A) :
  l = take (length l - n) l ++ sliceLast n l.
Proof. unfold sliceLast. by rewrite take_drop. Qed.

Lemma sliceLast_short {A} (n : nat) (l : list A) :
  (length l ≤ n)%nat → sliceLast n l = l.
Proof. intros H. unfold sliceLast. by replace (length l - n)%nat with 0%nat by lia. Qed.

(** ** The completion branch *)

Section CompletionPathFacts.
Context {U : UnicodeTables}.

Lemma completionPath_empty p message history :
  truthy (cleanInput message) = false →
  completionPath p message history = ([], Normal emptyInputGuidance).
Proof. intros H. unfold completionPath. by rewrite H. Qed.

Lemma completionPath_too_long p message history :
  truthy (cleanInput message) = true →
  (maxInputLength p < Z.of_nat (length (cleanInput message)))%Z →
  completionPath p message history = ([], Normal (lengthGuidance (maxInputLength p))).
Proof.
  intros Hne Hlen. unfold completionPath. rewrite Hne. cbn [negb].
  apply Z.gtb_lt in Hlen. by rewrite Hlen.
Qed.

Lemma completionPath_submitted p message history :
  truthy (cleanInput message) = true →
  (Z.of_nat (length (cleanInput message)) ≤ maxInputLength p)%Z →
  let prompt := effectivePrompt p in
  let messages := submittedMessages history (cleanInput message) in
  completionPath p message history =
    ([CallGenerateChat prompt messages],
     match generateChat (model p) prompt messages with
     | Normal response => Normal (cleanOutput response)
     | Abrupt error =>
         match errorDetail error with
         | Normal detail => Normal (js "Error: " ++ detail)
         | Abrupt t => Abrupt t
         end
     end).
Proof.
  intros Hne Hlen prompt messages. unfold completionPath. rewrite Hne. cbn [negb].
  destruct (Z.of_nat (length (cleanInput message)) >? maxInputLength p)%Z eqn:E;
    [apply Z.gtb_lt in E; lia|].
  fold (effectivePrompt p). fold (submittedMessages history (cleanInput message)).
  fold prompt. fold messages.
  cbn [mbind Async_bind invoke tryCatch complete].
  destruct (generateChat (model p) prompt messages) as [response|error];
    [reflexivity|].
  cbn [tryCatch]. destruct (errorDetail error); reflexivity.
Qed.


(** C4, as the code has it: a message the recognizer does not claim, whose
    cleaned text is not empty and is longer than the limit, is answered
    with the length guidance, which prints the limit; only the recognizer
    is consulted.  The limit is 2000 when the configuration gives none. *)
Theorem over_length_input_is_refused p message history :
  notRecognized p message →
  truthy (cleanInput message) = true →
  (maxInputLength p < Z.of_nat (length (cleanInput message)))%Z →
  outcome (processMessage p message history)
  = Normal (js "Сообщение слишком длинное. Максимум " ++ ofZ (maxInputLength p)
            ++ js " символов.")
  ∧ calls (processMessage p message history) = recognizerCalls p message
  ∧ ∀ newModel newHandler builtPrompt config,
      cfg_maxInputLength config = None →
      maxInputLength (newAIProcessor newModel newHandler builtPrompt config) = 2000%Z.
Proof.
  intros Hnot Hne Hlen. rewrite processMessage_not_recognized by done.
  rewrite completionPath_too_long by done. unfold outcome, calls. cbn [fst snd].
  split; [reflexivity|]. split; [by rewrite app_nil_r|].
  intros newModel newHandler builtPrompt config Hcfg.
  unfold newAIProcessor. cbn [maxInputLength]. by rewrite Hcfg.
Qed.

(** C5, as the code has it: a message made of white space only (the empty
    message included) that the recognizer does not claim is answered with
    the guidance asking for a non-empty message; only the recognizer is
    consulted, so [recordTask] is not called. *)
Theorem blank_input_gets_guidance p message history :
  Forall (λ c, isWhiteSpace c = true) message →
  notRecognized p message →
  outcome (processMessage p message history) = Normal emptyInputGuidance
  ∧ calls (processMessage p message history) = recognizerCalls p message
  ∧ ∀ description skillName success,
      CallRecordTask description skillName success
      ∉ calls (processMessage p message history).
Proof.
  intros Hblank Hnot. rewrite processMessage_not_recognized by done.
  rewrite completionPath_empty by (by rewrite cleanInput_blank).
  unfold outcome, calls. cbn [fst snd]. rewrite app_nil_r.
  split; [reflexivity|]. split; [reflexivity|].
  intros d sk b Hin. unfold recognizerCalls in Hin.
  destruct (solanaHandler p).
  - apply elem_of_cons in Hin as [Hin|Hin]; [discriminate | by apply elem_of_nil in Hin].
  - by apply elem_of_nil in Hin.
Qed.

(** C7, as the code has it: the response on the completion branch is the
    client's text trimmed, with every run of three or more line feeds
    written as two; it holds no three line feeds in a row, and a trimmed
    text that holds none is returned as it is. *)
Theorem completion_response_is_cleaned p message history response :
  notRecognized p message →
  truthy (cleanInput message) = true →
  (Z.of_nat (length (cleanInput message)) ≤ maxInputLength p)%Z →
  generateChat (model p) (effectivePrompt p)
    (submittedMessages history (cleanInput message)) = Normal response →
  outcome (processMessage p message history) = Normal (cleanOutput response)
  ∧ cleanOutput response = replaceLineFeedRuns 0 (trim response)
  ∧ includes (cleanOutput response) threeLineFeeds = false
  ∧ (includes (trim response) threeLineFeeds = false →
     cleanOutput response = trim response)
  ∧ ∀ k c t, c ≠ LF →
      replaceLineFeedRuns 0 (replicate k LF ++ c :: t)
      = replicate (if (3 <=? k)%nat then 2%nat else k) LF
        ++ c :: replaceLineFeedRuns 0 t.
Proof.
  intros Hnot Hne Hlen Hchat. rewrite processMessage_not_recognized by done.
  rewrite completionPath_submitted by done. unfold outcome. cbn [snd].
  rewrite Hchat. unfold cleanOutput. split; [reflexivity|]. split; [reflexivity|].
  split; [apply replaceLineFeedRuns_no_triple|]. split.
  - intros Hnone. by rewrite (replaceLineFeedRuns_unchanged 0).
  - intros k c t Hc. by rewrite replaceLineFeedRuns_run.
Qed.

(** C8: on the completion branch the client receives the last ten turns
    of the history at most, in their order, then the cleaned message as a
    user turn; the turns before the last ten are left out. *)
Theorem completion_receives_last_ten_turns p message history :
  notRecognized p message →
  truthy (cleanInput message) = true →
  (Z.of_nat (length (cleanInput message)) ≤ maxInputLength p)%Z →
  let turns := default [] history in
  let window := sliceLast 10 turns in
  calls (processMessage p message history)
  = recognizerCalls p message
    ++ [CallGenerateChat (effectivePrompt p)
          (window ++ [{| role := user; content := cleanInput message |}])]
  ∧ (length window ≤ 10)%nat
  ∧ turns = take (length turns - 10) turns ++ window
  ∧ window `suffix_of` turns
  ∧ ((length turns ≤ 10)%nat → window = turns).
Proof.
  intros Hnot Hne Hlen turns window. rewrite processMessage_not_recognized by done.
  rewrite completionPath_submitted by done. unfold calls. cbn [fst].
  unfold submittedMessages. rewrite map_copy_turns. fold turns. fold window.
  split; [reflexivity|]. split; [apply sliceLast_length|].
  split; [apply sliceLast_split|]. split; [apply suffix_drop|].
  apply sliceLast_short.
Qed.

End CompletionPathFacts.


(** What the run of the witness above resolves to. *)
Lemma executor_failure_becomes_text :
  @processMessage BasicUnicode.tables
    (Examples.solanaProcessor Examples.failingHandler (Some Examples.failingProtocol))
    (js "wallet balance") None
  = ([CallIsSolanaCommand (js "wallet balance"); CallHandleCommand (js "wallet balance")],
     Normal (js "Ошибка выполнения Solana команды: boom")).
Proof. vm_compute. reflexivity. Qed.


(** A rejection with [null] escapes too: the handler's own property read
    throws. *)
Lemma nullish_rejection_escapes :
  outcome (@processMessage BasicUnicode.tables
             (newAIProcessor Examples.nullRejectingModel Examples.eagerHandler
                Examples.prompt Examples.defaults)
             (js "hi") None)
  = Abrupt (ThrownObject (typeErrorReading JsNull (js "response"))).
Proof. vm_compute. reflexivity. Qed.

Lemma plainProcessor_recognizes_nothing answer message :
  notRecognized (Examples.plainProcessor answer) message.
Proof. intros h Hh. discriminate. Qed.

Lemma over_length_input_is_refused_witness :
  let p := Examples.plainProcessor (js "ok") in
  let message := Examples.longMessage in
  notRecognized p message
  ∧ truthy (@cleanInput BasicUnicode.tables message) = true
  ∧ (maxInputLength p < Z.of_nat (length (@cleanInput BasicUnicode.tables message)))%Z
  ∧ outcome (@processMessage BasicUnicode.tables p message None)
    = Normal (js "Сообщение слишком длинное. Максимум 2000 символов.")
  ∧ calls (@processMessage BasicUnicode.tables p message None) = [].
Proof.
  intros p message.
  assert (H1 : notRecognized p message) by apply plainProcessor_recognizes_nothing.
  assert (H2 : truthy (@cleanInput BasicUnicode.tables message) = true)
    by (vm_compute; reflexivity).
  assert (H3 : (maxInputLength p
                < Z.of_nat (length (@cleanInput BasicUnicode.tables message)))%Z)
    by (vm_compute; reflexivity).
  destruct (@over_length_input_is_refused BasicUnicode.tables p message None H1 H2 H3)
    as (Hout & Hcalls & _).
  refine (conj H1 (conj H2 (conj H3 (conj _ _)))).
  - rewrite Hout. vm_compute. reflexivity.
  - rewrite Hcalls. reflexivity.
Defined.

(** C4 as worded fails on a message longer than the limit whose cleaned
    text fits: 2001 spaces followed by [hi] go to the completion client. *)
Lemma over_length_raw_input_counterexample :
  let p := Examples.plainProcessor (js "ok") in
  length Examples.paddedMessage = 2003%nat
  ∧ maxInputLength p = 2000%Z
  ∧ @processMessage BasicUnicode.tables p Examples.paddedMessage None
    = ([CallGenerateChat Examples.prompt [{| role := user; content := js "hi" |}]],
       Normal (js "ok"))
  ∧ outcome (@processMessage BasicUnicode.tables p Examples.paddedMessage None)
    ≠ Normal (lengthGuidance 2000).
Proof.
  intros p. split; [vm_compute; reflexivity|]. split; [reflexivity|].
  split; [vm_compute; reflexivity|].
  intros H. vm_compute in H. discriminate.
Qed.

Lemma blank_input_gets_guidance_witness :
  let p := Examples.solanaProcessor Examples.solHandler (Some Examples.failingProtocol) in
  let message := js "   " in
  Forall (λ c, isWhiteSpace c = true) message
  ∧ notRecognized p message
  ∧ outcome (@processMessage BasicUnicode.tables p message None)
    = Normal (js "Пожалуйста, отправьте непустое сообщение.")
  ∧ calls (@processMessage BasicUnicode.tables p message None)
    = [CallIsSolanaCommand message].
Proof.
  intros p message.
  assert (H1 : Forall (λ c, isWhiteSpace c = true) message)
    by (repeat constructor).
  assert (H2 : notRecognized p message) by (intros h [= <-]; reflexivity).
  destruct (@blank_input_gets_guidance BasicUnicode.tables p message None H1 H2)
    as (Hout & Hcalls & _).
  refine (conj H1 (conj H2 (conj _ _))).
  - rewrite Hout. vm_compute. reflexivity.
  - rewrite Hcalls. reflexivity.
Defined.

(** C5 as worded fails when the recognizer claims a blank message: the
    command is executed and its result is the response. *)
Lemma blank_command_counterexample :
  let p := Examples.solanaProcessor Examples.eagerHandler None in
  let message := js "   " in
  Forall (λ c, isWhiteSpace c = true) message
  ∧ @processMessage BasicUnicode.tables p message None
    = ([CallIsSolanaCommand message; CallHandleCommand message],
       Normal (js "Balance: 1.5 SOL"))
  ∧ outcome (@processMessage BasicUnicode.tables p message None)
    ≠ Normal emptyInputGuidance.
Proof.
  intros p message. split; [repeat constructor|].
  split; [vm_compute; reflexivity|].
  intros H. vm_compute in H. discriminate.
Qed.

Lemma completion_response_is_cleaned_witness :
  let p := Examples.plainProcessor Examples.threeBlankLines in
  let message := js "hi" in
  notRecognized p message
  ∧ truthy (@cleanInput BasicUnicode.tables message) = true
  ∧ (Z.of_nat (length (@cleanInput BasicUnicode.tables message)) ≤ maxInputLength p)%Z
  ∧ generateChat (model p) (effectivePrompt p)
      (submittedMessages None (@cleanInput BasicUnicode.tables message))
    = Normal Examples.threeBlankLines
  ∧ outcome (@processMessage BasicUnicode.tables p message None)
    = Normal (js "a" ++ [LF; LF] ++ js "b").
Proof.
  intros p message.
  assert (H1 : notRecognized p message) by apply plainProcessor_recognizes_nothing.
  assert (H2 : truthy (@cleanInput BasicUnicode.tables message) = true)
    by (vm_compute; reflexivity).
  assert (H3 : (Z.of_nat (length (@cleanInput BasicUnicode.tables message))
                ≤ maxInputLength p)%Z) by (vm_compute; discriminate).
  assert (H4 : generateChat (model p) (effectivePrompt p)
                 (submittedMessages None (@cleanInput BasicUnicode.tables message))
               = Normal Examples.threeBlankLines) by reflexivity.
  destruct (@completion_response_is_cleaned BasicUnicode.tables p message None
              Examples.threeBlankLines H1 H2 H3 H4) as (Hout & _).
  refine (conj H1 (conj H2 (conj H3 (conj H4 _)))).
  rewrite Hout. vm_compute. reflexivity.
Defined.

(** C7 as worded fails on a run of two blank lines: the words leave it
    (it is shorter than three blank lines), the code writes it as one. *)
Lemma two_blank_lines_counterexample :
  let p := Examples.plainProcessor Examples.twoBlankLines in
  cleanOutput_spec Examples.twoBlankLines = js "a" ++ [LF; LF; LF] ++ js "b"
  ∧ outcome (@processMessage BasicUnicode.tables p (js "hi") None)
    = Normal (js "a" ++ [LF; LF] ++ js "b")
  ∧ outcome (@processMessage BasicUnicode.tables p (js "hi") None)
    ≠ Normal (cleanOutput_spec Examples.twoBlankLines).
Proof.
  intros p. split; [vm_compute; reflexivity|]. split; [vm_compute; reflexivity|].
  intros H. vm_compute in H. discriminate.
Qed.

Lemma completion_receives_last_ten_turns_witness :
  let p := Examples.plainProcessor (js "ok") in
  let message := js "  what   next? " in
  notRecognized p message
  ∧ truthy (@cleanInput BasicUnicode.tables message) = true
  ∧ (Z.of_nat (length (@cleanInput BasicUnicode.tables message)) ≤ maxInputLength p)%Z
  ∧ calls (@processMessage BasicUnicode.tables p message (Some Examples.longHistory))
    = [CallGenerateChat Examples.prompt
         (drop 2 Examples.longHistory
          ++ [{| role := user; content := js "what next?" |}])].
Proof.
  intros p message.
  assert (H1 : notRecognized p message) by apply plainProcessor_recognizes_nothing.
  assert (H2 : truthy (@cleanInput BasicUnicode.tables message) = true)
    by (vm_compute; reflexivity).
  assert (H3 : (Z.of_nat (length (@cleanInput BasicUnicode.tables message))
                ≤ maxInputLength p)%Z) by (vm_compute; discriminate).
  destruct (@completion_receives_last_ten_turns BasicUnicode.tables p message
              (Some Examples.longHistory) H1 H2 H3) as (Hcalls & _).
  refine (conj H1 (conj H2 (conj H3 _))).
  rewrite Hcalls. vm_compute. reflexivity.
Defined.

(** ** The profile manager *)

Module ProfileFacts.

Import AgentProfileManager.

Lemma withCapabilities_same (p : AgentProfile) : withCapabilities p (capabilities p) = p.
Proof. by destruct p. Qed.

Lemma setFirstEnabled_absent name enabled (cs : list AgentCapability) :
  (∀ c, c ∈ cs → cap_name c ≠ name) → setFirstEnabled name enabled cs = cs.
Proof.
  induction cs as [|c cs IH]; intros Habsent; [reflexivity|].
  cbn [setFirstEnabled]. unfold JsString.eqb.
  rewrite bool_decide_eq_false_2 by (apply Habsent; left).
  rewrite IH; [reflexivity|]. intros c' Hc'. apply Habsent. by right.
Qed.

Lemma setFirstEnabled_first name enabled (pre post : list AgentCapability) c :
  (∀ c', c' ∈ pre → cap_name c' ≠ name) → cap_name c = name →
  setFirstEnabled name enabled (pre ++ c :: post) = pre ++ setEnabled c enabled :: post.
Proof.
  intros Hpre Hc. induction pre as [|c' pre IH].
  - cbn [app setFirstEnabled]. unfold JsString.eqb.
    by rewrite bool_decide_eq_true_2.
  - cbn [app setFirstEnabled]. unfold JsString.eqb.
    rewrite bool_decide_eq_false_2 by (apply Hpre; left).
    rewrite IH; [reflexivity|]. intros c'' Hc''. apply Hpre. by right.
Qed.

Lemma filter_enabled_app (l1 l2 : list AgentCapability) :
  List.filter cap_enabled (l1 ++ l2)
  = List.filter cap_enabled l1 ++ List.filter cap_enabled l2.
Proof. induction l1 as [|c l1 IH]; [reflexivity|]. cbn. destruct (cap_enabled c); cbn; by rewrite IH. Qed.

Lemma elem_of_filter_enabled (c : AgentCapability) (l : list AgentCapability) :
  c ∈ List.filter cap_enabled l → c ∈ l.
Proof. rewrite !list_elem_of_In, filter_In. tauto. Qed.

(** C9, as the code has it: on an initialized profile holding no
    capability of that name, adding an enabled capability and toggling its
    name off leaves the enabled capabilities as they were, none of them of
    that name.  [toggleCapability] writes the flag of the first capability
    of the name, changes nothing when there is none or when the profile is
    not initialized, and [getEnabledCapabilities] is then empty. *)
Theorem capability_toggle_semantics :
  (∀ m p capability,
     profile m = Some p →
     cap_enabled capability = true →
     (∀ c, c ∈ capabilities p → cap_name c ≠ cap_name capability) →
     let m' := toggleCapability (addCapability m capability) (cap_name capability) false in
     (∀ c, c ∈ getEnabledCapabilities m' → cap_name c ≠ cap_name capability)
     ∧ getEnabledCapabilities m' = getEnabledCapabilities m
     ∧ ((∀ c, c ∈ capabilities p → cap_enabled c = false) →
        getEnabledCapabilities m' = []))
  ∧ (∀ m p name enabled pre c post,
       profile m = Some p →
       capabilities p = pre ++ c :: post →
       (∀ c', c' ∈ pre → cap_name c' ≠ name) →
       cap_name c = name →
       capabilities <$> profile (toggleCapability m name enabled)
       = Some (pre ++ setEnabled c enabled :: post))
  ∧ (∀ m p name enabled,
       profile m = Some p →
       (∀ c, c ∈ capabilities p → cap_name c ≠ name) →
       toggleCapability m name enabled = m)
  ∧ (∀ m name enabled,
       profile m = None →
       toggleCapability m name enabled = m ∧ getEnabledCapabilities m = []).
Proof.
  repeat apply conj.
  - intros m p capability Hp Hon Hfresh m'.
    assert (Henabled : getEnabledCapabilities m' = getEnabledCapabilities m).
    { unfold m', getEnabledCapabilities, toggleCapability, addCapability.
      rewrite Hp. cbn [profile capabilities withCapabilities].
      rewrite (setFirstEnabled_first _ _ (capabilities p) [] capability Hfresh eq_refl).
      rewrite filter_enabled_app. cbn. by rewrite app_nil_r. }
    split; [|split; [exact Henabled|]].
    + rewrite Henabled. unfold getEnabledCapabilities. rewrite Hp.
      intros c Hc. apply Hfresh. by apply elem_of_filter_enabled.
    + intros Hoff. rewrite Henabled. unfold getEnabledCapabilities. rewrite Hp.
      induction (capabilities p) as [|c cs IH]; [reflexivity|].
      cbn. rewrite (Hoff c) by left. apply IH.
      * intros c' Hc'. apply Hfresh. by right.
      * intros c' Hc'. apply Hoff. by right.
  - intros m p name enabled pre c post Hp Hcaps Hpre Hc.
    unfold toggleCapability. rewrite Hp. cbn [profile fmap option_fmap option_map capabilities withCapabilities].
    rewrite Hcaps. by rewrite setFirstEnabled_first.
  - intros m p name enabled Hp Habsent. unfold toggleCapability. rewrite Hp.
    rewrite setFirstEnabled_absent by done. rewrite withCapabilities_same.
    destruct m as [reg pr]. cbn in *. by rewrite Hp.
  - intros m name enabled Hp. unfold toggleCapability, getEnabledCapabilities.
    by rewrite Hp.
Qed.

Lemma capability_toggle_semantics_witness :
  let m := Examples.initialized in
  let capability := Examples.capabilityX "X" true in
  let m' := toggleCapability (addCapability m capability) (js "X") false in
  is_Some (profile m)
  ∧ cap_enabled capability = true
  ∧ (∀ c, c ∈ getEnabledCapabilities m' → cap_name c ≠ js "X")
  ∧ getEnabledCapabilities m' = getEnabledCapabilities m.
Proof.
  intros m capability m'.
  destruct (profile m) as [p|] eqn:Hp; [|vm_compute in Hp; discriminate].
  assert (Hfresh : ∀ c, c ∈ capabilities p → cap_name c ≠ cap_name capability).
  { pose proof Hp as Hp'. vm_compute in Hp'. injection Hp' as <-.
    intros c Hc. cbn [capabilities] in Hc.
    repeat (apply elem_of_cons in Hc as [-> | Hc]; [vm_compute; discriminate|]).
    by apply elem_of_nil in Hc. }
  destruct (proj1 capability_toggle_semantics m _ capability Hp eq_refl Hfresh)
    as (Hnone & Hsame & _).
  refine (conj _ (conj eq_refl (conj Hnone Hsame))).
  by eexists.
Defined.

(** C9 as worded fails on a profile that already holds a capability of
    the name: the toggle reaches the earlier one, the added one stays
    enabled. *)
Lemma duplicate_capability_counterexample :
  let m := addCapability Examples.initialized (Examples.capabilityX "X" true) in
  let m' := toggleCapability (addCapability m (Examples.capabilityX "X" true))
              (js "X") false in
  is_Some (profile m)
  ∧ cap_name (Examples.capabilityX "X" true) = js "X"
  ∧ Examples.capabilityX "X" true ∈ getEnabledCapabilities m'.
Proof.
  intros m m'. split; [vm_compute; by eexists|]. split; [reflexivity|].
  vm_compute. do 6 (apply elem_of_cons; right). apply elem_of_cons. by left.
Qed.

End ProfileFacts.

(** ** The registry *)

Module RegistryFacts.

Import SAPRegistry.

Lemma adjustReputation_bounds (r : Z) (success : bool) :
  (0 ≤ adjustReputation r success ≤ 100)%Z.
Proof. unfold adjustReputation, clamp. lia. Qed.

Lemma countOutcome_cons (b c : bool) (l : list bool) :
  countOutcome b (c :: l)
  = ((if Bool.eqb b c then 1 else 0) + countOutcome b l)%nat.
Proof. unfold countOutcome. cbn. by destruct (Bool.eqb b c). Qed.

Lemma countOutcome_total (l : list bool) :
  (countOutcome true l + countOutcome false l)%nat = length l.
Proof.
  induction l as [|[|] l IH]; [reflexivity| |];
    rewrite !countOutcome_cons; cbn [Bool.eqb length]; lia.
Qed.

Lemma recordTask_lookup reg now agentId description skillName success r :
  agents reg !! agentId = Some r →
  agents (recordTask reg now agentId description skillName success) !! agentId
  = Some (recordOutcome now success r).
Proof.
  intros Hr. unfold recordTask. rewrite Hr. cbn [agents]. apply lookup_insert_eq.
Qed.

(** The record of an agent after a sequence of recordings. *)
Lemma recordTasks_record (outcomes : list bool) :
  ∀ reg now agentId r,
    agents reg !! agentId = Some r →
    ∃ r', agents (recordTasks reg now agentId outcomes) !! agentId = Some r'
      ∧ successes r' = successes r + N.of_nat (countOutcome true outcomes)
      ∧ failures r' = failures r + N.of_nat (countOutcome false outcomes)
      ∧ tasksCompleted (profile r')
        = tasksCompleted (profile r) + N.of_nat (length outcomes)
      ∧ (outcomes ≠ [] → successRate (profile r') = rate (successes r') (failures r'))
      ∧ ((0 ≤ reputation (profile r) ≤ 100)%Z →
         (0 ≤ reputation (profile r') ≤ 100)%Z).
Proof.
  induction outcomes as [|success rest IH]; intros reg now agentId r Hr.
  - exists r. cbn [recordTasks length]. unfold countOutcome. cbn.
    repeat split; try done; lia.
  - cbn [recordTasks].
    pose proof (recordTask_lookup reg now agentId [] [] success r Hr) as Hstep.
    destruct (IH _ (now + 1) agentId _ Hstep)
      as (r' & Hr' & Hs & Hf & Htasks & Hrate & Hrep).
    exists r'. split; [exact Hr'|].
    rewrite !countOutcome_cons. cbn [length]. repeat split.
    + rewrite Hs. destruct success; cbn; lia.
    + rewrite Hf. destruct success; cbn; lia.
    + rewrite Htasks. cbn. lia.
    + intros _. destruct rest as [|b rest]; [|apply Hrate; discriminate].
      cbn [recordTasks] in Hr'. rewrite Hstep in Hr'. by injection Hr' as <-.
    + apply Hrep. cbn. apply adjustReputation_bounds.
    + apply Hrep. cbn. apply adjustReputation_bounds.
Qed.

Lemma registerAgent_record reg now data reg0 agentId :
  registerAgent reg now data = (reg0, Some agentId) →
  ∃ r, agents reg0 !! agentId = Some r
    ∧ successes r = 0 ∧ failures r = 0
    ∧ tasksCompleted (profile r) = data_tasksCompleted data
    ∧ reputation (profile r) = data_reputation data
    ∧ successRate (profile r) = data_successRate data.
Proof.
  unfold registerAgent.
  destruct (negb (truthy (data_name data)) || negb (truthy (data_version data)));
    [discriminate|].
  intros [= <- <-]. eexists. cbn [agents]. rewrite lookup_insert_eq.
  split; [reflexivity|]. by cbn.
Qed.

(** C6: for an agent registered with no task completed and a reputation
    within [0,100], after any sequence of recordings holding [n] successes
    and [m] failures, in whatever order, [tasksCompleted] is [n + m],
    [successRate] is [100 * n / (n + m)] once a task is recorded, and
    [reputation] is within [0,100]. *)
Theorem recordTasks_statistics reg now data reg0 agentId start (outcomes : list bool) :
  registerAgent reg now data = (reg0, Some agentId) →
  data_tasksCompleted data = 0 →
  (0 ≤ data_reputation data ≤ 100)%Z →
  let n := countOutcome true outcomes in
  let m := countOutcome false outcomes in
  ∃ p, getAgent (recordTasks reg0 start agentId outcomes) agentId = Some p
    ∧ tasksCompleted p = N.of_nat (n + m)
    ∧ ((0 < n + m)%nat →
       (successRate p == 100 * inject_Z (Z.of_nat n) / inject_Z (Z.of_nat (n + m)))%Q)
    ∧ (0 ≤ reputation p ≤ 100)%Z.
Proof.
  intros Hreg Htasks0 Hrep0 n m.
  destruct (registerAgent_record reg now data reg0 agentId Hreg)
    as (r & Hr & Hs0 & Hf0 & Ht0 & Hr0 & _).
  destruct (recordTasks_record outcomes reg0 start agentId r Hr)
    as (r' & Hr' & Hs & Hf & Htasks & Hrate & Hrep).
  exists (profile r'). unfold getAgent. rewrite Hr'. split; [reflexivity|].
  fold n in Hs. fold m in Hf. rewrite Hs0 in Hs. rewrite Hf0 in Hf.
  repeat split.
  - rewrite Htasks, Ht0, Htasks0. unfold n, m. rewrite countOutcome_total. lia.
  - intros Hpos. rewrite Hrate.
    + rewrite Hs, Hf. unfold rate. rewrite !N.add_0_l, <- Nat2N.inj_add, !nat_N_Z.
      reflexivity.
    + intros ->. unfold n, m, countOutcome in Hpos. cbn in Hpos. lia.
  - apply Hrep. rewrite Hr0. lia.
  - apply Hrep. rewrite Hr0. lia.
Qed.

Lemma recordTasks_statistics_witness :
  let outcomes := [true; false; true; true; false] in
  let registered := registerAgent empty 1000 Examples.starterData in
  registered.2 = Some 1
  ∧ data_tasksCompleted Examples.starterData = 0
  ∧ (0 ≤ data_reputation Examples.starterData ≤ 100)%Z
  ∧ ∃ p, getAgent (recordTasks registered.1 1001 1 outcomes) 1 = Some p
      ∧ tasksCompleted p = 5
      ∧ (successRate p == 60)%Q
      ∧ (0 ≤ reputation p ≤ 100)%Z.
Proof.
  intros outcomes registered.
  assert (H1 : registerAgent empty 1000 Examples.starterData = (registered.1, Some 1))
    by reflexivity.
  assert (H2 : data_tasksCompleted Examples.starterData = 0) by reflexivity.
  assert (H3 : (0 ≤ data_reputation Examples.starterData ≤ 100)%Z) by (cbn; lia).
  destruct (recordTasks_statistics empty 1000 Examples.starterData registered.1 1 1001
              outcomes H1 H2 H3) as (p & Hp & Htasks & Hrate & Hrep).
  refine (conj eq_refl (conj H2 (conj H3 _))).
  exists p. refine (conj Hp (conj Htasks (conj _ Hrep))).
  rewrite Hrate by (cbn; lia). reflexivity.
Defined.

(** The same run, evaluated: three successes and two failures from
    reputation 0 leave reputation 0 after the last failure. *)
Lemma recordTasks_run :
  let p := getAgent (recordTasks (registerAgent empty 1000 Examples.starterData).1
                       1001 1 [true; false; true; true; false]) 1 in
  reputation <$> p = Some 0%Z
  ∧ tasksCompleted <$> p = Some 5
  ∧ lastActive <$> p = Some 1005.
Proof. vm_compute. repeat split. Qed.

End RegistryFacts.

(** * Further properties *)

(** ** Trimming *)

Lemma trimStart_suffix (s : jsstring) : trimStart s `suffix_of` s.
Proof.
  induction s as [|c s IH]; [done|]. cbn [trimStart].
  destruct (isWhiteSpace c); [by apply suffix_cons_r | done].
Qed.

Lemma trimStart_leading (s : jsstring) : leadingWhiteSpace (trimStart s) = false.
Proof.
  induction s as [|c s IH]; [done|]. cbn [trimStart].
  destruct (isWhiteSpace c) eqn:Hc; [exact IH|].
  unfold leadingWhiteSpace. cbn. exact Hc.
Qed.

Lemma trimStart_fixed (s : jsstring) : leadingWhiteSpace s = false → trimStart s = s.
Proof.
  destruct s as [|c s]; [done|]. unfold leadingWhiteSpace. cbn. by intros ->.
Qed.

Lemma trimEnd_prefix (s : jsstring) : trimEnd s `prefix_of` s.
Proof.
  unfold trimEnd. apply prefix_suffix_reverse. rewrite reverse_involutive.
  apply trimStart_suffix.
Qed.

Lemma trimEnd_trailing (s : jsstring) : trailingWhiteSpace (trimEnd s) = false.
Proof.
  unfold trailingWhiteSpace, trimEnd. rewrite last_reverse.
  apply trimStart_leading.
Qed.

Lemma trimEnd_fixed (s : jsstring) : trailingWhiteSpace s = false → trimEnd s = s.
Proof.
  intros H. unfold trimEnd. rewrite trimStart_fixed; [apply reverse_involutive|].
  unfold leadingWhiteSpace. rewrite head_reverse. exact H.
Qed.

Lemma prefix_leading (a b : jsstring) :
  a `prefix_of` b → leadingWhiteSpace b = false → leadingWhiteSpace a = false.
Proof.
  intros [k ->] H. destruct a as [|c a]; [done|]. exact H.
Qed.

Lemma trim_leading (s : jsstring) : leadingWhiteSpace (trim s) = false.
Proof.
  unfold trim. apply (prefix_leading _ (trimStart s)); [apply trimEnd_prefix|].
  apply trimStart_leading.
Qed.

Lemma trim_trailing (s : jsstring) : trailingWhiteSpace (trim s) = false.
Proof. unfold trim. apply trimEnd_trailing. Qed.

Lemma trim_fixed (s : jsstring) :
  leadingWhiteSpace s = false → trailingWhiteSpace s = false → trim s = s.
Proof.
  intros Hl Ht. unfold trim. rewrite (trimStart_fixed s Hl). by apply trimEnd_fixed.
Qed.

Lemma trim_idempotent (s : jsstring) : trim (trim s) = trim s.
Proof. apply trim_fixed; [apply trim_leading | apply trim_trailing]. Qed.

Lemma trim_length (s : jsstring) : (length (trim s) ≤ length s)%nat.
Proof.
  unfold trim. etransitivity; [apply prefix_length, trimEnd_prefix|].
  apply suffix_length, trimStart_suffix.
Qed.

Lemma isWhiteSpace_LF : isWhiteSpace LF = true.
Proof. reflexivity. Qed.

(** ** Output hygiene, continued *)

Lemma emitLineFeeds_le (n : nat) : (length (emitLineFeeds n) ≤ n)%nat.
Proof.
  unfold emitLineFeeds. rewrite length_replicate.
  destruct (3 <=? n)%nat eqn:E; [apply Nat.leb_le in E; lia | lia].
Qed.

Lemma replaceLineFeedRuns_length (n : nat) (s : jsstring) :
  (length (replaceLineFeedRuns n s) ≤ n + length s)%nat.
Proof.
  revert n. induction s as [|c t IH]; intros n; cbn [replaceLineFeedRuns length].
  - pose proof (emitLineFeeds_le n). lia.
  - destruct (c =? LF).
    + specialize (IH (S n)). lia.
    + rewrite length_app. cbn [length]. specialize (IH 0%nat).
      pose proof (emitLineFeeds_le n). lia.
Qed.

Lemma replaceLineFeedRuns_leading (s : jsstring) :
  leadingWhiteSpace s = false → leadingWhiteSpace (replaceLineFeedRuns 0 s) = false.
Proof.
  destruct s as [|c t]; [done|]. unfold leadingWhiteSpace. cbn [head replaceLineFeedRuns].
  intros Hc. destruct (c =? LF) eqn:E.
  - apply N.eqb_eq in E. subst c. by rewrite isWhiteSpace_LF in Hc.
  - cbn. exact Hc.
Qed.

Lemma replaceLineFeedRuns_last (n : nat) (s : jsstring) (c : N) :
  c ≠ LF → last (replaceLineFeedRuns n (s ++ [c])) = Some c.
Proof.
  intros Hc. apply N.eqb_neq in Hc. revert n.
  induction s as [|d s IH]; intros n; cbn [app replaceLineFeedRuns].
  - rewrite Hc. cbn [replaceLineFeedRuns]. unfold emitLineFeeds at 2. cbn.
    by rewrite last_snoc.
  - destruct (d =? LF); [apply IH|].
    rewrite last_app, last_cons, IH. reflexivity.
Qed.

Lemma replaceLineFeedRuns_trailing (s : jsstring) :
  trailingWhiteSpace s = false → trailingWhiteSpace (replaceLineFeedRuns 0 s) = false.
Proof.
  destruct (last s) as [c|] eqn:Hlast.
  - apply last_Some in Hlast as [s' ->]. unfold trailingWhiteSpace.
    rewrite last_snoc. intros Hc. rewrite replaceLineFeedRuns_last; [exact Hc|].
    intros ->. by rewrite isWhiteSpace_LF in Hc.
  - apply last_None in Hlast. by subst s.
Qed.

(** X3: cleaning an already cleaned output changes nothing. *)
Theorem cleanOutput_idempotent (text : jsstring) :
  cleanOutput (cleanOutput text) = cleanOutput text.
Proof.
  unfold cleanOutput. set (o := replaceLineFeedRuns 0 (trim text)).
  assert (Htrim : trim o = o).
  { apply trim_fixed.
    - apply replaceLineFeedRuns_leading, trim_leading.
    - apply replaceLineFeedRuns_trailing, trim_trailing. }
  rewrite Htrim. apply (replaceLineFeedRuns_unchanged 0).
  apply replaceLineFeedRuns_no_triple.
Qed.

(** X4: a cleaned output neither begins nor ends with white space, is
    never longer than the text it was made from, and holds the same units
    apart from line feeds once the text is trimmed. *)
Theorem cleanOutput_is_trimmed (text : jsstring) :
  leadingWhiteSpace (cleanOutput text) = false
  ∧ trailingWhiteSpace (cleanOutput text) = false
  ∧ (length (cleanOutput text) ≤ length text)%nat
  ∧ List.filter (λ c, negb (c =? LF)) (cleanOutput text)
    = List.filter (λ c, negb (c =? LF)) (trim text).
Proof.
  unfold cleanOutput. repeat split.
  - apply replaceLineFeedRuns_leading, trim_leading.
  - apply replaceLineFeedRuns_trailing, trim_trailing.
  - etransitivity; [apply replaceLineFeedRuns_length|]. apply trim_length.
  - generalize (trim text). intros s. generalize 0%nat.
    induction s as [|c t IH]; intros n; cbn [replaceLineFeedRuns].
    + unfold emitLineFeeds. induction (if (3 <=? n)%nat then 2%nat else n); [done|].
      cbn. assumption.
    + destruct (c =? LF) eqn:E.
      * cbn [List.filter]. rewrite E. cbn [negb]. apply IH.
      * rewrite List.filter_app. cbn [List.filter]. rewrite E. cbn [negb].
        rewrite IH. unfold emitLineFeeds.
        induction (if (3 <=? n)%nat then 2%nat else n); [done|]. cbn. assumption.
Qed.

(** ** Input hygiene, continued *)

Lemma pair_induction (P : jsstring → Prop) :
  P [] → (∀ c, P [c]) → (∀ c d t, P t → P (d :: t) → P (c :: d :: t)) →
  ∀ s, P s.
Proof.
  intros Hnil Hone Hstep s.
  assert (H : P s ∧ ∀ c, P (c :: s)); [|by destruct H].
  induction s as [|d t [IH1 IH2]]; [by split|].
  split; [apply IH2|]. intros c. by apply Hstep.
Qed.

Section InputFacts.
Context {U : UnicodeTables}.

Lemma collapseWhiteSpace_length (inRun : bool) (s : jsstring) :
  (length (collapseWhiteSpace inRun s) ≤ length s)%nat.
Proof.
  revert inRun. induction s as [|c t IH]; intros inRun; [done|].
  cbn [collapseWhiteSpace]. destruct (isWhiteSpace c); [destruct inRun|]; cbn [length].
  - specialize (IH true). lia.
  - specialize (IH true). lia.
  - specialize (IH false). lia.
Qed.

Lemma collapseWhiteSpace_units (inRun : bool) (s : jsstring) (c : N) :
  c ∈ collapseWhiteSpace inRun s → c = 0x20 ∨ (c ∈ s ∧ isWhiteSpace c = false).
Proof.
  revert inRun. induction s as [|d t IH]; intros inRun; cbn [collapseWhiteSpace].
  - intros H. by apply elem_of_nil in H.
  - destruct (isWhiteSpace d) eqn:Hd; [destruct inRun|].
    + intros H. destruct (IH true H) as [->|[Hin Hc]]; [by left|].
      right. split; [by right | done].
    + intros H. apply elem_of_cons in H as [->|H]; [by left|].
      destruct (IH true H) as [->|[Hin Hc]]; [by left|].
      right. split; [by right | done].
    + intros H. apply elem_of_cons in H as [->|H].
      * right. split; [by left | done].
      * destruct (IH false H) as [->|[Hin Hc]]; [by left|].
        right. split; [by right | done].
Qed.

Lemma removeDisallowed_pair (c d : N) (t : jsstring) :
  removeDisallowed (c :: d :: t)
  = if isHighSurrogate c && isLowSurrogate d
    then (if isKept (codePointOfPair c d) then c :: d :: removeDisallowed t
          else removeDisallowed t)
    else (if isKept c then c :: removeDisallowed (d :: t)
          else removeDisallowed (d :: t)).
Proof. reflexivity. Qed.

Lemma removeDisallowed_length (s : jsstring) :
  (length (removeDisallowed s) ≤ length s)%nat.
Proof.
  induction s as [|c|c d t IH1 IH2] using pair_induction.
  - done.
  - cbn. destruct (isKept c); cbn; lia.
  - rewrite removeDisallowed_pair.
    destruct (isHighSurrogate c && isLowSurrogate d).
    + destruct (isKept (codePointOfPair c d)); cbn [length] in *; lia.
    + destruct (isKept c); cbn [length] in *; lia.
Qed.

Lemma removeDisallowed_units (s : jsstring) (x : N) :
  x ∈ removeDisallowed s →
  x ∈ s ∧ (isKept x = true ∨ isHighSurrogate x = true ∨ isLowSurrogate x = true).
Proof.
  induction s as [|c|c d t IH1 IH2] using pair_induction.
  - intros H. by apply elem_of_nil in H.
  - cbn. destruct (isKept c) eqn:Hc; intros H; [|by apply elem_of_nil in H].
    apply elem_of_cons in H as [->|H]; [|by apply elem_of_nil in H].
    split; [by left | by left].
  - rewrite removeDisallowed_pair.
    destruct (isHighSurrogate c && isLowSurrogate d) eqn:Hpair.
    + apply andb_true_iff in Hpair as [Hhi Hlo].
      destruct (isKept (codePointOfPair c d)).
      * intros H. apply elem_of_cons in H as [->|H]; [split; [by left | auto]|].
        apply elem_of_cons in H as [->|H]; [split; [right; by left | auto]|].
        destruct (IH1 H) as [Hin Hk]. split; [by do 2 right | done].
      * intros H. destruct (IH1 H) as [Hin Hk]. split; [by do 2 right | done].
    + destruct (isKept c) eqn:Hc.
      * intros H. apply elem_of_cons in H as [->|H]; [split; [by left | auto]|].
        destruct (IH2 H) as [Hin Hk]. split; [by right | done].
      * intros H. destruct (IH2 H) as [Hin Hk]. split; [by right | done].
Qed.

Lemma trim_units (s : jsstring) (c : N) : c ∈ trim s → c ∈ s.
Proof.
  intros H. unfold trim in H.
  destruct (trimEnd_prefix (trimStart s)) as [k1 E1].
  destruct (trimStart_suffix s) as [k2 E2].
  rewrite E2, E1. apply elem_of_app. right. apply elem_of_app. by left.
Qed.

(** X1: cleaning never lengthens a message. *)
Theorem cleanInput_never_longer (text : jsstring) :
  (length (cleanInput text) ≤ length text)%nat.
Proof.
  unfold cleanInput. etransitivity; [apply removeDisallowed_length|].
  etransitivity; [apply collapseWhiteSpace_length|]. apply trim_length.
Qed.

(** X2: every unit of a cleaned message is a space or a unit of the
    message itself; the only white space left is the space U+0020; and a
    unit that is not a surrogate belongs to the allowed class. *)
Theorem cleanInput_alphabet (text : jsstring) (c : N) :
  c ∈ cleanInput text →
  (c = 0x20 ∨ c ∈ text)
  ∧ (isWhiteSpace c = true → c = 0x20)
  ∧ (isHighSurrogate c = false → isLowSurrogate c = false → isKept c = true).
Proof.
  intros H. unfold cleanInput in H.
  apply removeDisallowed_units in H as [Hin Hclass].
  apply collapseWhiteSpace_units in Hin as [->|[Hin Hws]].
  - split; [by left|]. split; [done|]. intros _ _. reflexivity.
  - split; [right; by apply trim_units|]. split; [congruence|].
    intros Hhi Hlo. destruct Hclass as [Hk|[Hk|Hk]]; congruence.
Qed.

End InputFacts.

Lemma cleanInput_alphabet_witness :
  0x20 ∈ @cleanInput BasicUnicode.tables (js "  what   next? ")
  ∧ (0x20 = 0x20 ∨ 0x20 ∈ js "  what   next? ")
  ∧ (isWhiteSpace 0x20 = true → 0x20 = 0x20)
  ∧ (isHighSurrogate 0x20 = false → isLowSurrogate 0x20 = false →
     @isKept BasicUnicode.tables 0x20 = true).
Proof.
  assert (H : 0x20 ∈ @cleanInput BasicUnicode.tables (js "  what   next? ")).
  { vm_compute. do 4 (apply elem_of_cons; right). apply elem_of_cons. by left. }
  exact (conj H (@cleanInput_alphabet BasicUnicode.tables _ _ H)).
Defined.

(** ** Runs of the processor *)

Section RunFacts.
Context {U : UnicodeTables}.

Lemma processMessage_recognizer_throws p h message history t :
  solanaHandler p = Some h → isSolanaCommand h message = Abrupt t →
  processMessage p message history = ([CallIsSolanaCommand message], Abrupt t).
Proof. intros Hh Hrec. unfold processMessage. by rewrite Hh, Hrec. Qed.

Lemma processMessage_without_handler p message history :
  solanaHandler p = None →
  processMessage p message history = completionPath p message history.
Proof. intros Hh. unfold processMessage. by rewrite Hh. Qed.

(** The branches of the completion path. *)
Lemma completionPath_cases p message history :
  (truthy (cleanInput message) = false
   ∧ completionPath p message history = ([], Normal emptyInputGuidance))
  ∨ (truthy (cleanInput message) = true
     ∧ (maxInputLength p < Z.of_nat (length (cleanInput message)))%Z
     ∧ completionPath p message history
       = ([], Normal (lengthGuidance (maxInputLength p))))
  ∨ (truthy (cleanInput message) = true
     ∧ (Z.of_nat (length (cleanInput message)) ≤ maxInputLength p)%Z
     ∧ calls (completionPath p message history)
       = [CallGenerateChat (effectivePrompt p)
            (submittedMessages history (cleanInput message))]).
Proof.
  destruct (truthy (cleanInput message)) eqn:Hne.
  - destruct (Z_lt_le_dec (maxInputLength p) (Z.of_nat (length (cleanInput message))))
      as [Hlong|Hfits].
    + right. left. by rewrite completionPath_too_long.
    + right. right. by rewrite completionPath_submitted.
  - left. by rewrite completionPath_empty.
Qed.

(** Every run, branch by branch. *)
Lemma processMessage_cases p message history :
  match solanaHandler p with
  | None => processMessage p message history = completionPath p message history
  | Some h =>
      match isSolanaCommand h message with
      | Abrupt t =>
          processMessage p message history = ([CallIsSolanaCommand message], Abrupt t)
      | Normal false =>
          processMessage p message history
          = (CallIsSolanaCommand message :: calls (completionPath p message history),
             outcome (completionPath p message history))
      | Normal true =>
          match handleCommand h message with
          | Normal result =>
              processMessage p message history
              = (CallIsSolanaCommand message :: CallHandleCommand message
                   :: recordingCalls p message result,
                 Normal (result_message result))
          | Abrupt error =>
              processMessage p message history
              = ([CallIsSolanaCommand message; CallHandleCommand message],
                 match errorMessageText error with
                 | Normal text => Normal (commandErrorPrefix ++ text)
                 | Abrupt t => Abrupt t
                 end)
          end
      end
  end.
Proof.
  destruct (solanaHandler p) as [h|] eqn:Hh;
    [|by apply processMessage_without_handler].
  destruct (isSolanaCommand h message) as [[|]|t] eqn:Hrec.
  - rewrite (processMessage_recognized p h message history Hh Hrec).
    destruct (handleCommand h message) as [result|error] eqn:Hres.
    + by rewrite (commandPath_fulfilled p h message result Hres).
    + by rewrite (commandPath_rejected p h message error Hres).
  - unfold processMessage. rewrite Hh, Hrec. cbn [mbind Async_bind invoke].
    by destruct (completionPath p message history).
  - by apply (processMessage_recognizer_throws p h).
Qed.

Lemma detectSkillName_values (message : jsstring) :
  detectSkillName message ∈ skillTags ∨ detectSkillName message = [].
Proof.
  unfold detectSkillName, skillTags.
  match goal with |- context [if ?b then _ else _] => destruct b end;
    [left; apply elem_of_cons; left; reflexivity|].
  match goal with |- context [if ?b then _ else _] => destruct b end;
    [left; apply elem_of_cons; right; apply elem_of_cons; left; reflexivity|].
  match goal with |- context [if ?b then _ else _] => destruct b end;
    [left; do 2 (apply elem_of_cons; right); apply elem_of_cons; left; reflexivity|].
  match goal with |- context [if ?b then _ else _] => destruct b end;
    [left; do 3 (apply elem_of_cons; right); apply elem_of_cons; left; reflexivity|].
  right. reflexivity.
Qed.

(** The classifier has five values, the four tags and the empty
    tag, and a tag is truthy exactly when it is one of the four. *)
Theorem detectSkillName_range (message : jsstring) :
  (detectSkillName message ∈ skillTags ∨ detectSkillName message = [])
  ∧ (truthy (detectSkillName message) = true ↔ detectSkillName message ∈ skillTags).
Proof.
  split; [apply detectSkillName_values|].
  destruct (detectSkillName_values message) as [Hin|Hnil].
  - split; [done|]. intros _. unfold skillTags in Hin.
    rewrite !elem_of_cons in Hin.
    destruct Hin as [->|[->|[->|[->|Hin]]]]; try reflexivity.
    by apply elem_of_nil in Hin.
  - rewrite Hnil. split; [discriminate|]. intros Hin. unfold skillTags in Hin.
    rewrite !elem_of_cons in Hin.
    destruct Hin as [H|[H|[H|[H|H]]]]; try discriminate. by apply elem_of_nil in H.
Qed.

(** X5: a run makes one of six sequences of calls: none; the completion
    request alone; the recognizer alone; the recognizer then the completion
    request; the recognizer then the executor; or these two followed by one
    recording.  The executor and the completion client are never both
    called, and the recognizer and the executor get the message as it came. *)
Theorem run_shapes p message history :
  let run := calls (processMessage p message history) in
  let ask := CallIsSolanaCommand message in
  let exec := CallHandleCommand message in
  let chat := CallGenerateChat (effectivePrompt p)
                (submittedMessages history (cleanInput message)) in
  run = [] ∨ run = [chat] ∨ run = [ask] ∨ run = [ask; chat] ∨ run = [ask; exec]
  ∨ ∃ success,
      run = [ask; exec;
             CallRecordTask (substring0 80 message) (detectSkillName message) success].
Proof.
  intros run ask exec chat. subst run.
  pose proof (processMessage_cases p message history) as Hcases.
  assert (Hcompletion : calls (completionPath p message history) = []
                        ∨ calls (completionPath p message history) = [chat]).
  { destruct (completionPath_cases p message history)
      as [[_ ->]|[(_ & _ & ->)|(_ & _ & ->)]]; auto. }
  destruct (solanaHandler p) as [h|].
  - destruct (isSolanaCommand h message) as [[|]|t].
    + destruct (handleCommand h message) as [result|error]; rewrite Hcases.
      * unfold calls, recordingCalls. cbn [fst].
        destruct (sapProtocol p); [destruct (truthy (detectSkillName message))|];
          eauto 10.
      * auto 10.
    + rewrite Hcases. unfold calls at 1. cbn [fst].
      destruct Hcompletion as [->| ->]; auto 10.
    + rewrite Hcases. auto 10.
  - rewrite Hcases. destruct Hcompletion as [->| ->]; auto.
Qed.

(** X6: whenever a run records a task, the tag is one of the four skill
    tags and is the classifier's tag for the message, the description is
    the first 80 units of the message, a registry front is configured, and
    the executor returned a result whose success flag is the one recorded. *)
Theorem recorded_tasks_are_tagged p message history description skillName success :
  CallRecordTask description skillName success
  ∈ calls (processMessage p message history) →
  skillName ∈ skillTags
  ∧ skillName = detectSkillName message
  ∧ description = substring0 80 message
  ∧ (length description ≤ 80)%nat
  ∧ is_Some (sapProtocol p)
  ∧ ∃ h result,
      solanaHandler p = Some h
      ∧ isSolanaCommand h message = Normal true
      ∧ handleCommand h message = Normal result
      ∧ success = result_success result.
Proof.
  intros Hin.
  pose proof (processMessage_cases p message history) as Hcases.
  assert (Hcompletion : CallRecordTask description skillName success
                        ∉ calls (completionPath p message history)).
  { destruct (completionPath_cases p message history)
      as [[_ ->]|[(_ & _ & ->)|(_ & _ & ->)]]; unfold calls; cbn [fst];
      rewrite ?elem_of_cons, ?elem_of_nil; intros H; try tauto.
    by destruct H. }
  destruct (solanaHandler p) as [h|] eqn:Hh.
  - destruct (isSolanaCommand h message) as [[|]|t] eqn:Hrec.
    + destruct (handleCommand h message) as [result|error] eqn:Hres;
        rewrite Hcases in Hin; unfold calls in Hin; cbn [fst] in Hin.
      * apply elem_of_cons in Hin as [Hin|Hin]; [discriminate|].
        apply elem_of_cons in Hin as [Hin|Hin]; [discriminate|].
        unfold recordingCalls in Hin.
        destruct (sapProtocol p) as [sap|]; [|by apply elem_of_nil in Hin].
        destruct (truthy (detectSkillName message)) eqn:Htag;
          [|by apply elem_of_nil in Hin].
        apply elem_of_cons in Hin as [Hin|Hin]; [|by apply elem_of_nil in Hin].
        assert (Ed : description = substring0 80 message) by congruence.
        assert (Es : skillName = detectSkillName message) by congruence.
        assert (Eb : success = result_success result) by congruence.
        clear Hin Hcompletion. subst description skillName success.
        split.
        { destruct (detectSkillName_values message) as [Htags|Hnil]; [done|].
          by rewrite Hnil in Htag. }
        split; [done|]. split; [done|].
        split; [unfold substring0; rewrite length_take; lia|].
        split; [by eexists|]. by exists h, result.
      * apply elem_of_cons in Hin as [Hin|Hin]; [discriminate|].
        apply elem_of_cons in Hin as [Hin|Hin]; [discriminate|].
        by apply elem_of_nil in Hin.
    + rewrite Hcases in Hin. unfold calls at 1 in Hin. cbn [fst] in Hin.
      apply elem_of_cons in Hin as [Hin|Hin]; [discriminate | contradiction].
    + rewrite Hcases in Hin. unfold calls in Hin. cbn [fst] in Hin.
      apply elem_of_cons in Hin as [Hin|Hin]; [discriminate|].
      by apply elem_of_nil in Hin.
  - rewrite Hcases in Hin. contradiction.
Qed.

(** X7: when the executor rejects, nothing is recorded: the run is the
    recognizer call and the executor call, and for a rejection with a
    value the response is the command error text. *)
Theorem executor_rejection_is_not_recorded p h message history error :
  solanaHandler p = Some h →
  isSolanaCommand h message = Normal true →
  handleCommand h message = Abrupt error →
  calls (processMessage p message history)
  = [CallIsSolanaCommand message; CallHandleCommand message]
  ∧ ∀ e, error = ThrownObject e →
      outcome (processMessage p message history)
      = Normal (commandErrorPrefix ++ default (js "undefined") (err_message e)).
Proof.
  intros Hh Hrec Hres.
  pose proof (processMessage_cases p message history) as Hcases.
  rewrite Hh, Hrec, Hres in Hcases. rewrite Hcases. split; [reflexivity|].
  by intros e ->.
Qed.

(** X8: a processor built without [enableSolana: true] never consults
    the command handler nor the registry front, whatever [sapProtocol] is:
    its runs are those of the completion path, and hold no call other than
    the completion request. *)
Theorem solana_disabled_never_reaches_registry
    newModel newHandler builtPrompt config message history :
  cfg_enableSolana config ≠ Some true →
  let p := newAIProcessor newModel newHandler builtPrompt config in
  processMessage p message history = completionPath p message history
  ∧ Forall (λ c, isCommandSideCall c = false) (calls (processMessage p message history)).
Proof.
  intros Hoff p.
  assert (Hnone : solanaHandler p = None).
  { unfold p, newAIProcessor. cbn [solanaHandler].
    destruct (cfg_enableSolana config) as [[|]|]; [congruence|done|done]. }
  rewrite (processMessage_without_handler p message history Hnone).
  split; [reflexivity|].
  destruct (completionPath_cases p message history)
    as [[_ ->]|[(_ & _ & ->)|(_ & _ & ->)]]; unfold calls; cbn [fst];
    repeat constructor.
Qed.

(** X9: a message the recognizer does not claim and whose length, as it
    came, is within the limit is never refused for its length: it is
    answered with the empty-message guidance when its cleaned text is
    empty, and it reaches the completion client otherwise. *)
Theorem short_input_is_never_refused_for_length p message history :
  notRecognized p message →
  (Z.of_nat (length message) ≤ maxInputLength p)%Z →
  (cleanInput message = []
   ∧ processMessage p message history
     = (recognizerCalls p message, Normal emptyInputGuidance))
  ∨ (cleanInput message ≠ []
     ∧ calls (processMessage p message history)
       = recognizerCalls p message
         ++ [CallGenerateChat (effectivePrompt p)
               (submittedMessages history (cleanInput message))]).
Proof.
  intros Hnot Hlen. rewrite processMessage_not_recognized by done.
  assert (Hshort : (length (cleanInput message) ≤ length message)%nat).
  { unfold cleanInput. etransitivity; [apply removeDisallowed_length|].
    etransitivity; [apply collapseWhiteSpace_length|]. apply trim_length. }
  destruct (completionPath_cases p message history)
    as [[Hne ->]|[(Hne & Hlong & _)|(Hne & _ & Hcalls)]].
  - left. split; [by destruct (cleanInput message)|].
    unfold calls, outcome. cbn [fst snd]. by rewrite app_nil_r.
  - lia.
  - right. split; [by destruct (cleanInput message)|].
    unfold calls at 1. cbn [fst]. by rewrite Hcalls.
Qed.

(** X10: whatever request a run sends to the completion client, the
    prompt is the configured one (the built one when that is empty), there
    are at most eleven messages, and the last one is a user turn holding
    the cleaned message, which is not empty and within the limit. *)
Theorem completion_request_invariant p message history prompt messages :
  CallGenerateChat prompt messages ∈ calls (processMessage p message history) →
  prompt = effectivePrompt p
  ∧ (length messages ≤ 11)%nat
  ∧ last messages = Some {| role := user; content := cleanInput message |}
  ∧ cleanInput message ≠ []
  ∧ (Z.of_nat (length (cleanInput message)) ≤ maxInputLength p)%Z
  ∧ (buildSystemPrompt p ≠ [] → prompt ≠ []).
Proof.
  intros Hin.
  assert (Hcompletion : CallGenerateChat prompt messages
                        ∈ calls (completionPath p message history)).
  { pose proof (processMessage_cases p message history) as Hcases.
    destruct (solanaHandler p) as [h|].
    - destruct (isSolanaCommand h message) as [[|]|t].
      + destruct (handleCommand h message) as [result|error];
          rewrite Hcases in Hin; unfold calls in Hin; cbn [fst] in Hin.
        * apply elem_of_cons in Hin as [Hin|Hin]; [discriminate|].
          apply elem_of_cons in Hin as [Hin|Hin]; [discriminate|].
          unfold recordingCalls in Hin.
          destruct (sapProtocol p); [destruct (truthy (detectSkillName message))|];
            [apply elem_of_cons in Hin as [Hin|Hin]; [discriminate|] | |];
            by apply elem_of_nil in Hin.
        * apply elem_of_cons in Hin as [Hin|Hin]; [discriminate|].
          apply elem_of_cons in Hin as [Hin|Hin]; [discriminate|].
          by apply elem_of_nil in Hin.
      + rewrite Hcases in Hin. unfold calls at 1 in Hin. cbn [fst] in Hin.
        by apply elem_of_cons in Hin as [Hin|Hin]; [discriminate|].
      + rewrite Hcases in Hin. unfold calls in Hin. cbn [fst] in Hin.
        apply elem_of_cons in Hin as [Hin|Hin]; [discriminate|].
        by apply elem_of_nil in Hin.
    - by rewrite Hcases in Hin. }
  destruct (completionPath_cases p message history)
    as [[_ Hc]|[(_ & _ & Hc)|(Hne & Hfits & Hc)]]; rewrite Hc in Hcompletion;
    unfold calls in Hcompletion; cbn [fst] in Hcompletion;
    try (by apply elem_of_nil in Hcompletion).
  apply elem_of_cons in Hcompletion as [Heq|Hnil]; [|by apply elem_of_nil in Hnil].
  injection Heq as -> ->. split; [reflexivity|]. unfold submittedMessages.
  split.
  { rewrite length_app, length_map. cbn [length].
    pose proof (sliceLast_length 10 (default [] history)). lia. }
  split; [by rewrite last_snoc|].
  split; [intros E; by rewrite E in Hne|]. split; [exact Hfits|].
  intros Hbuilt. unfold effectivePrompt.
  destruct (systemPrompt p) as [|c s'] eqn:Hs; [exact Hbuilt | discriminate].
Qed.

(** X11: the history counts only through its last ten turns: two
    histories with the same last ten turns give the same run, and a
    missing history is an empty one. *)
Theorem history_counts_through_its_window p message (h1 h2 : option (list ChatMessage)) :
  sliceLast 10 (default [] h1) = sliceLast 10 (default [] h2) →
  processMessage p message h1 = processMessage p message h2.
Proof.
  intros Hwindow.
  assert (Hcompletion : completionPath p message h1 = completionPath p message h2).
  { unfold completionPath. by rewrite Hwindow. }
  unfold processMessage. by rewrite Hcompletion.
Qed.

End RunFacts.

Lemma recorded_tasks_are_tagged_witness :
  let p := Examples.solanaProcessor Examples.solHandler (Some Examples.failingProtocol) in
  let message := js "sol balance" in
  CallRecordTask message (js "Balance Checker") false
  ∈ calls (@processMessage BasicUnicode.tables p message None)
  ∧ js "Balance Checker" ∈ skillTags
  ∧ is_Some (sapProtocol p).
Proof.
  intros p message.
  assert (H : CallRecordTask message (js "Balance Checker") false
              ∈ calls (@processMessage BasicUnicode.tables p message None)).
  { vm_compute. do 2 (apply elem_of_cons; right). apply elem_of_cons. by left. }
  destruct (@recorded_tasks_are_tagged BasicUnicode.tables p message None _ _ _ H)
    as (Htag & _ & _ & _ & Hsap & _).
  exact (conj H (conj Htag Hsap)).
Defined.

Lemma executor_rejection_is_not_recorded_witness :
  let p := Examples.solanaProcessor Examples.failingHandler (Some Examples.failingProtocol) in
  let message := js "wallet balance" in
  solanaHandler p = Some Examples.failingHandler
  ∧ isSolanaCommand Examples.failingHandler message = Normal true
  ∧ handleCommand Examples.failingHandler message = Abrupt (ThrownObject Examples.boom)
  ∧ calls (@processMessage BasicUnicode.tables p message None)
    = [CallIsSolanaCommand message; CallHandleCommand message].
Proof.
  intros p message.
  assert (H1 : solanaHandler p = Some Examples.failingHandler) by reflexivity.
  assert (H2 : isSolanaCommand Examples.failingHandler message = Normal true)
    by reflexivity.
  assert (H3 : handleCommand Examples.failingHandler message
               = Abrupt (ThrownObject Examples.boom)) by reflexivity.
  exact (conj H1 (conj H2 (conj H3
           (proj1 (@executor_rejection_is_not_recorded BasicUnicode.tables
                     p Examples.failingHandler message None _ H1 H2 H3))))).
Defined.

Lemma solana_disabled_never_reaches_registry_witness :
  let p := newAIProcessor (Examples.constantModel (js "ok")) Examples.eagerHandler
             Examples.prompt Examples.registryOnly in
  let message := js "my balance" in
  cfg_enableSolana Examples.registryOnly ≠ Some true
  ∧ is_Some (sapProtocol p)
  ∧ @processMessage BasicUnicode.tables p message None
    = @completionPath BasicUnicode.tables p message None.
Proof.
  intros p message.
  assert (H : cfg_enableSolana Examples.registryOnly ≠ Some true) by discriminate.
  refine (conj H (conj _ _)); [by eexists|].
  exact (proj1 (@solana_disabled_never_reaches_registry BasicUnicode.tables
                  (Examples.constantModel (js "ok")) Examples.eagerHandler
                  Examples.prompt Examples.registryOnly message None H)).
Defined.

Lemma short_input_is_never_refused_for_length_witness :
  let p := Examples.plainProcessor (js "ok") in
  let message := js "hi" in
  notRecognized p message
  ∧ (Z.of_nat (length message) ≤ maxInputLength p)%Z
  ∧ calls (@processMessage BasicUnicode.tables p message None)
    = [CallGenerateChat Examples.prompt [{| role := user; content := js "hi" |}]].
Proof.
  intros p message.
  assert (H1 : notRecognized p message) by apply plainProcessor_recognizes_nothing.
  assert (H2 : (Z.of_nat (length message) ≤ maxInputLength p)%Z)
    by (vm_compute; discriminate).
  refine (conj H1 (conj H2 _)).
  destruct (@short_input_is_never_refused_for_length BasicUnicode.tables
              p message None H1 H2) as [[Hempty _]|[_ Hcalls]].
  - vm_compute in Hempty. discriminate.
  - rewrite Hcalls. vm_compute. reflexivity.
Defined.

Lemma completion_request_invariant_witness :
  let p := Examples.plainProcessor (js "ok") in
  let message := js "  what   next? " in
  let request := CallGenerateChat Examples.prompt
                   (drop 2 Examples.longHistory
                    ++ [{| role := user; content := js "what next?" |}]) in
  request ∈ calls (@processMessage BasicUnicode.tables p message
                     (Some Examples.longHistory))
  ∧ (length (drop 2 Examples.longHistory
             ++ [{| role := user; content := js "what next?" |}]) ≤ 11)%nat
  ∧ @cleanInput BasicUnicode.tables message ≠ [].
Proof.
  intros p message request.
  assert (H : request ∈ calls (@processMessage BasicUnicode.tables p message
                                 (Some Examples.longHistory))).
  { vm_compute. apply elem_of_cons. by left. }
  destruct (@completion_request_invariant BasicUnicode.tables p message
              (Some Examples.longHistory) _ _ H) as (_ & Hlen & _ & Hne & _).
  exact (conj H (conj Hlen Hne)).
Defined.

Lemma history_counts_through_its_window_witness :
  let p := Examples.plainProcessor (js "ok") in
  sliceLast 10 (default [] (Some Examples.longHistory))
  = sliceLast 10 (default [] (Some (drop 2 Examples.longHistory)))
  ∧ @processMessage BasicUnicode.tables p (js "hi") (Some Examples.longHistory)
    = @processMessage BasicUnicode.tables p (js "hi")
        (Some (drop 2 Examples.longHistory)).
Proof.
  intros p.
  assert (H : sliceLast 10 (default [] (Some Examples.longHistory))
              = sliceLast 10 (default [] (Some (drop 2 Examples.longHistory))))
    by (vm_compute; reflexivity).
  exact (conj H (@history_counts_through_its_window BasicUnicode.tables p (js "hi")
                   _ _ H)).
Defined.

(** ** The profile manager, continued *)

Module ProfileMore.

Import AgentProfileManager.

Lemma eqb_true (a b : jsstring) : JsString.eqb a b = true ↔ a = b.
Proof. unfold JsString.eqb. apply bool_decide_eq_true. Qed.

Lemma eqb_false (a b : jsstring) : JsString.eqb a b = false ↔ a ≠ b.
Proof. unfold JsString.eqb. apply bool_decide_eq_false. Qed.

Lemma withCapabilities_twice p cs1 cs2 :
  withCapabilities (withCapabilities p cs1) cs2 = withCapabilities p cs2.
Proof. reflexivity. Qed.

Lemma setFirstEnabled_identity name enabled (cs : list AgentCapability) :
  map capabilityIdentity (setFirstEnabled name enabled cs) = map capabilityIdentity cs.
Proof.
  induction cs as [|c cs IH]; [reflexivity|]. cbn [setFirstEnabled].
  destruct (JsString.eqb (cap_name c) name); cbn [map]; [reflexivity|].
  by rewrite IH.
Qed.

Lemma setFirstEnabled_twice name e1 e2 (cs : list AgentCapability) :
  setFirstEnabled name e2 (setFirstEnabled name e1 cs) = setFirstEnabled name e2 cs.
Proof.
  induction cs as [|c cs IH]; [reflexivity|]. cbn [setFirstEnabled].
  destruct (JsString.eqb (cap_name c) name) eqn:E; cbn [setFirstEnabled setEnabled cap_name];
    rewrite E; [reflexivity|]. by rewrite IH.
Qed.

Lemma setFirstEnabled_commute n1 e1 n2 e2 (cs : list AgentCapability) :
  n1 ≠ n2 →
  setFirstEnabled n1 e1 (setFirstEnabled n2 e2 cs)
  = setFirstEnabled n2 e2 (setFirstEnabled n1 e1 cs).
Proof.
  intros Hne. induction cs as [|c cs IH]; [reflexivity|]. cbn [setFirstEnabled].
  destruct (JsString.eqb (cap_name c) n1) eqn:E1;
    destruct (JsString.eqb (cap_name c) n2) eqn:E2;
    cbn [setFirstEnabled setEnabled cap_name]; rewrite ?E1, ?E2; try reflexivity.
  - apply eqb_true in E1, E2. congruence.
  - by rewrite IH.
Qed.

Lemma setFirstEnabled_current name enabled (cs : list AgentCapability) c :
  findCapability name cs = Some c → cap_enabled c = enabled →
  setFirstEnabled name enabled cs = cs.
Proof.
  unfold findCapability. induction cs as [|d cs IH]; [discriminate|].
  cbn [List.find setFirstEnabled].
  destruct (JsString.eqb (cap_name d) name).
  - intros [= ->] <-. by destruct c.
  - intros Hfind Hc. by rewrite IH.
Qed.

Lemma findCapability_setFirstEnabled name enabled (cs : list AgentCapability) c :
  findCapability name cs = Some c →
  findCapability name (setFirstEnabled name enabled cs) = Some (setEnabled c enabled).
Proof.
  unfold findCapability. induction cs as [|d cs IH]; [discriminate|].
  cbn [List.find setFirstEnabled].
  destruct (JsString.eqb (cap_name d) name) eqn:E.
  - intros [= ->]. cbn [List.find setEnabled cap_name]. by rewrite E.
  - intros Hfind. cbn [List.find]. rewrite E. by apply IH.
Qed.

Lemma filter_enabled_absent name (cs : list AgentCapability) :
  (∀ c, c ∈ cs → cap_name c ≠ name) →
  List.filter (λ c, negb (JsString.eqb (cap_name c) name)) (List.filter cap_enabled cs)
  = List.filter cap_enabled cs.
Proof.
  induction cs as [|c cs IH]; intros Habsent; [reflexivity|]. cbn [List.filter].
  assert (Hc : JsString.eqb (cap_name c) name = false)
    by (apply eqb_false, Habsent; left).
  assert (Hrest : ∀ c', c' ∈ cs → cap_name c' ≠ name)
    by (intros c' Hc'; apply Habsent; by right).
  destruct (cap_enabled c); cbn [List.filter]; rewrite ?Hc; cbn [negb];
    by rewrite IH.
Qed.

Lemma setFirstEnabled_off_unique name (cs : list AgentCapability) :
  NoDup (map cap_name cs) →
  List.filter cap_enabled (setFirstEnabled name false cs)
  = List.filter (λ c, negb (JsString.eqb (cap_name c) name)) (List.filter cap_enabled cs).
Proof.
  induction cs as [|c cs IH]; intros Hnodup; [reflexivity|].
  cbn [map] in Hnodup. apply NoDup_cons in Hnodup as [Hfresh Hnodup].
  cbn [setFirstEnabled].
  destruct (JsString.eqb (cap_name c) name) eqn:E.
  - apply eqb_true in E. cbn [List.filter setEnabled cap_enabled].
    assert (Habsent : ∀ c', c' ∈ cs → cap_name c' ≠ name).
    { intros c' Hc' Hname. apply Hfresh. rewrite E, <- Hname.
      apply list_elem_of_fmap. by exists c'. }
    destruct (cap_enabled c); cbn [List.filter].
    + assert (Hc : JsString.eqb (cap_name c) name = true) by by apply eqb_true.
      rewrite Hc. cbn [negb]. by rewrite filter_enabled_absent.
    + by rewrite filter_enabled_absent.
  - cbn [List.filter]. destruct (cap_enabled c); cbn [List.filter];
      rewrite ?E; cbn [negb]; by rewrite IH.
Qed.

(** X13: a toggle changes nothing but enabled flags: the registry, the
    other fields of the profile, and the name, description and version of
    every capability, in their order, stay as they were. *)
Theorem toggle_changes_flags_only (m : Manager) name enabled :
  let m' := toggleCapability m name enabled in
  registry m' = registry m
  ∧ (map capabilityIdentity ∘ capabilities) <$> profile m'
    = (map capabilityIdentity ∘ capabilities) <$> profile m
  ∧ (λ p, withCapabilities p []) <$> profile m'
    = (λ p, withCapabilities p []) <$> profile m.
Proof.
  unfold toggleCapability. destruct (profile m) as [p|] eqn:Hp; cbn [registry].
  - cbn. by rewrite setFirstEnabled_identity.
  - cbn. by rewrite ?Hp.
Qed.

(** X14: of two toggles of one name, the later decides; toggling twice
    to the same value is toggling once. *)
Theorem toggle_last_wins (m : Manager) name e1 e2 :
  toggleCapability (toggleCapability m name e1) name e2 = toggleCapability m name e2.
Proof.
  unfold toggleCapability. destruct (profile m) as [p|] eqn:Hp; cbn [profile registry].
  - cbn [capabilities withCapabilities]. by rewrite setFirstEnabled_twice.
  - by rewrite Hp.
Qed.

(** X15: toggling a name to the value its first capability already has
    changes nothing, so turning it the other way and back restores the
    manager. *)
Theorem toggle_round_trip (m : Manager) p name c :
  profile m = Some p →
  findCapability name (capabilities p) = Some c →
  toggleCapability m name (cap_enabled c) = m
  ∧ toggleCapability (toggleCapability m name (negb (cap_enabled c))) name (cap_enabled c)
    = m.
Proof.
  intros Hp Hfind.
  assert (Hsame : toggleCapability m name (cap_enabled c) = m).
  { unfold toggleCapability. rewrite Hp.
    rewrite (setFirstEnabled_current name _ (capabilities p) c Hfind eq_refl).
    destruct m as [reg pr]. cbn in *. subst pr. by destruct p. }
  split; [exact Hsame|].
  unfold toggleCapability at 1 2. rewrite Hp. cbn [profile registry capabilities withCapabilities].
  rewrite setFirstEnabled_twice.
  unfold toggleCapability in Hsame. by rewrite Hp in Hsame.
Qed.

(** X16: toggles of two different names commute. *)
Theorem toggles_of_different_names_commute (m : Manager) n1 e1 n2 e2 :
  n1 ≠ n2 →
  toggleCapability (toggleCapability m n1 e1) n2 e2
  = toggleCapability (toggleCapability m n2 e2) n1 e1.
Proof.
  intros Hne. unfold toggleCapability.
  destruct (profile m) as [p|] eqn:Hp; cbn [profile registry].
  - cbn [capabilities withCapabilities]. by rewrite (setFirstEnabled_commute n2 e2 n1 e1).
  - by rewrite Hp.
Qed.

(** X17: when the capability names of the profile are pairwise
    different, turning a name off removes exactly the capabilities of that
    name from the enabled ones, the others keeping their order. *)
Theorem toggle_off_with_unique_names (m : Manager) p name :
  profile m = Some p →
  NoDup (map cap_name (capabilities p)) →
  getEnabledCapabilities (toggleCapability m name false)
  = List.filter (λ c, negb (JsString.eqb (cap_name c) name)) (getEnabledCapabilities m)
  ∧ ∀ c, c ∈ getEnabledCapabilities (toggleCapability m name false) → cap_name c ≠ name.
Proof.
  intros Hp Hnodup.
  assert (Heq : getEnabledCapabilities (toggleCapability m name false)
                = List.filter (λ c, negb (JsString.eqb (cap_name c) name))
                    (getEnabledCapabilities m)).
  { unfold getEnabledCapabilities, toggleCapability. rewrite Hp.
    cbn [profile capabilities withCapabilities]. by apply setFirstEnabled_off_unique. }
  split; [exact Heq|]. intros c Hc. rewrite Heq in Hc.
  apply list_elem_of_In, filter_In in Hc as [_ Hc].
  apply negb_true_iff, eqb_false in Hc. exact Hc.
Qed.

(** X18: turning a name on leaves an enabled capability of that name
    whenever the profile holds one, and it is the first of that name. *)
Theorem toggle_on_enables (m : Manager) p name c :
  profile m = Some p →
  findCapability name (capabilities p) = Some c →
  setEnabled c true ∈ getEnabledCapabilities (toggleCapability m name true)
  ∧ cap_name (setEnabled c true) = name.
Proof.
  intros Hp Hfind.
  pose proof (findCapability_setFirstEnabled name true _ c Hfind) as Hfirst.
  unfold findCapability in Hfirst, Hfind.
  apply find_some in Hfirst as [Hin Hname]. apply find_some in Hfind as [_ Hc].
  split.
  - unfold getEnabledCapabilities, toggleCapability. rewrite Hp.
    cbn [profile capabilities withCapabilities].
    apply list_elem_of_In, filter_In. split; [exact Hin | reflexivity].
  - cbn [setEnabled cap_name]. by apply eqb_true.
Qed.

(** X19: [addCapability] puts the capability last and changes no other:
    the enabled ones are those of before, followed by the new one when it
    is enabled; and the first capability of the new one's name is an older
    namesake when there is one. *)
Theorem addCapability_appends (m : Manager) p capability :
  profile m = Some p →
  capabilities <$> profile (addCapability m capability)
  = Some (capabilities p ++ [capability])
  ∧ getEnabledCapabilities (addCapability m capability)
    = getEnabledCapabilities m ++ (if cap_enabled capability then [capability] else [])
  ∧ findCapability (cap_name capability) (capabilities p ++ [capability])
    = Some (default capability (findCapability (cap_name capability) (capabilities p))).
Proof.
  intros Hp. unfold addCapability, getEnabledCapabilities. rewrite Hp.
  cbn [profile fmap option_fmap option_map capabilities withCapabilities default].
  split; [reflexivity|]. split.
  - rewrite ProfileFacts.filter_enabled_app. cbn [List.filter].
    by destruct (cap_enabled capability).
  - unfold findCapability. induction (capabilities p) as [|c cs IH].
    + cbn. unfold JsString.eqb. by rewrite bool_decide_eq_true_2.
    + cbn [app List.find]. destruct (JsString.eqb (cap_name c) (cap_name capability));
        [reflexivity | exact IH].
Qed.

(** X20: on a manager that is not initialized every method leaves the
    manager as it is, there is no enabled capability, no profile and no
    export. *)
Theorem uninitialized_manager_is_inert {U : UnicodeTables} (m : Manager) :
  profile m = None →
  (∀ capability, addCapability m capability = m)
  ∧ (∀ name enabled, toggleCapability m name enabled = m)
  ∧ (∀ description, updateDescription m description = m)
  ∧ (∀ price cur, setPricing m price cur = m)
  ∧ getEnabledCapabilities m = []
  ∧ getProfile m = None
  ∧ exportForOpenClaw m = None.
Proof.
  intros Hp.
  unfold addCapability, toggleCapability, updateDescription, setPricing,
    getEnabledCapabilities, getProfile, exportForOpenClaw.
  by rewrite Hp.
Qed.

(** Pricing and description do not touch the capabilities: the
    enabled ones stay, the later of two pricings decides, and the two
    updates commute with each other and with a toggle. *)
Theorem pricing_and_description_are_independent (m : Manager) :
  (∀ price cur, getEnabledCapabilities (setPricing m price cur)
                = getEnabledCapabilities m)
  ∧ (∀ description, getEnabledCapabilities (updateDescription m description)
                    = getEnabledCapabilities m)
  ∧ (∀ p1 c1 p2 c2, setPricing (setPricing m p1 c1) p2 c2 = setPricing m p2 c2)
  ∧ (∀ price cur description,
       updateDescription (setPricing m price cur) description
       = setPricing (updateDescription m description) price cur)
  ∧ (∀ price cur name enabled,
       toggleCapability (setPricing m price cur) name enabled
       = setPricing (toggleCapability m name enabled) price cur).
Proof.
  unfold setPricing, updateDescription, toggleCapability, getEnabledCapabilities.
  destruct (profile m) as [p|] eqn:Hp; cbn [profile registry];
    repeat split; intros; rewrite ?Hp; reflexivity.
Qed.

Lemma replaceWhiteSpaceRuns_units (r : jsstring) (inRun : bool) (s : jsstring) (c : N) :
  c ∈ replaceWhiteSpaceRuns r inRun s → c ∈ r ∨ (c ∈ s ∧ isWhiteSpace c = false).
Proof.
  revert inRun. induction s as [|d t IH]; intros inRun; cbn [replaceWhiteSpaceRuns].
  - intros H. by apply elem_of_nil in H.
  - destruct (isWhiteSpace d) eqn:Hd; [destruct inRun|].
    + intros H. destruct (IH true H) as [Hr|[Hin Hc]]; [by left|].
      right. split; [by right | done].
    + intros H. apply elem_of_app in H as [H|H]; [by left|].
      destruct (IH true H) as [Hr|[Hin Hc]]; [by left|].
      right. split; [by right | done].
    + intros H. apply elem_of_cons in H as [->|H].
      * right. split; [by left | done].
      * destruct (IH false H) as [Hr|[Hin Hc]]; [by left|].
        right. split; [by right | done].
Qed.

(** [cleanInput]'s white-space step is the same replacement, by a space. *)
Lemma collapseWhiteSpace_replace (inRun : bool) (s : jsstring) :
  collapseWhiteSpace inRun s = replaceWhiteSpaceRuns [0x20] inRun s.
Proof.
  revert inRun. induction s as [|c t IH]; intros inRun; [reflexivity|].
  cbn [collapseWhiteSpace replaceWhiteSpaceRuns].
  destruct (isWhiteSpace c); [destruct inRun|]; cbn [app]; by rewrite IH.
Qed.

(** X21: the export of an initialized manager names its enabled
    capabilities, in their order, carries the profile's id, version,
    description and reputation, and its name holds no white space. *)
Theorem export_names_enabled_capabilities {U : UnicodeTables} (m : Manager) p :
  profile m = Some p →
  ∃ e, exportForOpenClaw m = Some e
    ∧ export_capabilities e = map cap_name (List.filter cap_enabled (capabilities p))
    ∧ (∀ c, c ∈ export_name e → isWhiteSpace c = false)
    ∧ export_agentId e = profile_id p
    ∧ export_version e = profile_version p
    ∧ export_description e = profile_description p
    ∧ export_reputation e = reputation p.
Proof.
  intros Hp. unfold exportForOpenClaw, getEnabledCapabilities. rewrite Hp.
  eexists. split; [reflexivity|]. cbn. repeat split.
  intros c Hc. apply replaceWhiteSpaceRuns_units in Hc as [Hc|[_ Hc]]; [|exact Hc].
  apply elem_of_cons in Hc as [->|Hc]; [reflexivity | by apply elem_of_nil in Hc].
Qed.

Lemma initialized_profile :
  ∃ p, profile Examples.initialized = Some p
    ∧ capabilities p = starterCapabilities.
Proof. vm_compute. by eexists. Qed.

Lemma starterCapabilities_names_differ : NoDup (map cap_name starterCapabilities).
Proof.
  apply NoDup_ListNoDup. vm_compute.
  repeat (constructor; [intros Hin; cbn in Hin; intuition discriminate|]).
  constructor.
Qed.

Lemma toggle_round_trip_witness :
  let m := Examples.initialized in
  let name := js "Network Status" in
  toggleCapability (toggleCapability m name false) name true = m.
Proof.
  intros m name.
  destruct initialized_profile as (p & Hp & Hcaps).
  assert (Hfind : findCapability name (capabilities p)
                  = Some (starterCapability "Network Status" "Check Solana network health")).
  { rewrite Hcaps. vm_compute. reflexivity. }
  exact (proj2 (toggle_round_trip m p name _ Hp Hfind)).
Defined.

Lemma toggles_of_different_names_commute_witness :
  let m := Examples.initialized in
  js "Network Status" ≠ js "Token Price Query"
  ∧ toggleCapability (toggleCapability m (js "Network Status") false)
      (js "Token Price Query") false
    = toggleCapability (toggleCapability m (js "Token Price Query") false)
        (js "Network Status") false.
Proof.
  intros m.
  assert (H : js "Network Status" ≠ js "Token Price Query")
    by (vm_compute; discriminate).
  exact (conj H (toggles_of_different_names_commute m _ false _ false H)).
Defined.

Lemma toggle_off_with_unique_names_witness :
  let m := Examples.initialized in
  map cap_name (getEnabledCapabilities (toggleCapability m (js "Network Status") false))
  = [js "Solana Balance Check"; js "Token Price Query"; js "Transaction Analysis";
     js "Natural Language Processing"; js "Multi-Provider AI"].
Proof.
  intros m.
  destruct initialized_profile as (p & Hp & Hcaps).
  assert (Hnodup : NoDup (map cap_name (capabilities p))).
  { rewrite Hcaps. apply starterCapabilities_names_differ. }
  rewrite (proj1 (toggle_off_with_unique_names m p (js "Network Status") Hp Hnodup)).
  vm_compute. reflexivity.
Defined.

Lemma toggle_on_enables_witness :
  let m := toggleCapability Examples.initialized (js "Network Status") false in
  ∃ c, c ∈ getEnabledCapabilities (toggleCapability m (js "Network Status") true)
    ∧ cap_name c = js "Network Status".
Proof.
  intros m.
  assert (Hp : ∃ p, profile m = Some p
                 ∧ findCapability (js "Network Status") (capabilities p)
                   = Some (setEnabled (starterCapability "Network Status"
                                         "Check Solana network health") false)).
  { vm_compute. by eexists. }
  destruct Hp as (p & Hp & Hfind).
  eexists. exact (toggle_on_enables m p _ _ Hp Hfind).
Defined.

Lemma addCapability_appends_witness :
  let m := Examples.initialized in
  let capability := Examples.capabilityX "Network Status" true in
  map cap_name (getEnabledCapabilities (addCapability m capability))
  = map cap_name (getEnabledCapabilities m) ++ [js "Network Status"].
Proof.
  intros m capability.
  destruct initialized_profile as (p & Hp & Hcaps).
  rewrite (proj1 (proj2 (addCapability_appends m p capability Hp))).
  rewrite map_app. reflexivity.
Defined.

Lemma uninitialized_manager_is_inert_witness :
  let m := new SAPRegistry.empty in
  profile m = None
  ∧ addCapability m (Examples.capabilityX "X" true) = m
  ∧ @exportForOpenClaw BasicUnicode.tables m = None.
Proof.
  intros m.
  assert (H : profile m = None) by reflexivity.
  destruct (@uninitialized_manager_is_inert BasicUnicode.tables m H)
    as (Hadd & _ & _ & _ & _ & _ & Hexport).
  exact (conj H (conj (Hadd _) Hexport)).
Defined.

Lemma export_names_enabled_capabilities_witness :
  let m := toggleCapability Examples.initialized (js "Multi-Provider AI") false in
  ∃ e, @exportForOpenClaw BasicUnicode.tables m = Some e
    ∧ export_name e = js "solana-ai-agent"
    ∧ export_capabilities e
      = [js "Solana Balance Check"; js "Token Price Query"; js "Transaction Analysis";
         js "Network Status"; js "Natural Language Processing"].
Proof.
  intros m.
  assert (Hp : ∃ p, profile m = Some p) by (vm_compute; by eexists).
  destruct Hp as (p & Hp).
  destruct (@export_names_enabled_capabilities BasicUnicode.tables m p Hp)
    as (e & He & _).
  exists e. split; [exact He|].
  assert (Hrun : @exportForOpenClaw BasicUnicode.tables m
                 = Some {| export_name := js "solana-ai-agent";
                           export_version := js "1.0.0";
                           export_description := js "Advanced AI agent";
                           export_author := js "Solana Agent Protocol";
                           export_capabilities :=
                             [js "Solana Balance Check"; js "Token Price Query";
                              js "Transaction Analysis"; js "Network Status";
                              js "Natural Language Processing"];
                           export_agentId := 1;
                           export_solanaEnabled := true;
                           export_reputation := 0 |})
    by (vm_compute; reflexivity).
  rewrite Hrun in He. injection He as <-. split; reflexivity.
Defined.

End ProfileMore.

(** ** Configuration *)

Module ConfigFacts.

Import Config.

Section WithNumbers.
Context {P : NumberParsing}.

Lemma both_iff (A B C D : Prop) : (A ↔ C) → (B ↔ D) → (A ∧ B ↔ C ∧ D).
Proof. tauto. Qed.

Lemma truthy_nonempty (s : jsstring) : truthy s = true ↔ s ≠ [].
Proof. destruct s; cbn; split; congruence. Qed.

Lemma eqb_iff (a b : jsstring) : JsString.eqb a b = true ↔ a = b.
Proof. unfold JsString.eqb. apply bool_decide_eq_true. Qed.

Lemma requireText_nil (value : jsstring) (text : string) :
  requireText value text = [] ↔ value ≠ [].
Proof.
  unfold requireText. rewrite <- truthy_nonempty.
  destruct (truthy value); split; congruence.
Qed.

Lemma requireText_sublist (value : jsstring) (text : string) :
  requireText value text `sublist_of` [js text].
Proof.
  unfold requireText. destruct (truthy value); [apply sublist_nil_l | done].
Qed.

Lemma orDefault_set (value : option jsstring) (fallback : jsstring) :
  (∃ v, value = Some v ∧ v ≠ [] ∧ orDefault value fallback = v)
  ∨ ((value = None ∨ value = Some []) ∧ orDefault value fallback = fallback).
Proof.
  destruct value as [[|c v]|]; cbn; [right | left | right]; eauto.
Qed.

Lemma envOr_empty_fallback (env : Env) (name : string) :
  envOr env name "" ≠ [] ↔ isSet env name.
Proof.
  unfold envOr, isSet.
  destruct (orDefault_set (env !! name) (js "")) as [(v & Hv & Hne & ->)|[Hv ->]].
  - split; [intros _; by exists v | done].
  - split; [done|]. intros (v & Hv' & Hne). destruct Hv as [Hv|Hv]; congruence.
Qed.

Lemma validateConfig_core (config : BotConfig) :
  validateConfig config = [] ↔
  (mode config = js "twitter" → ∀ t, twitter config = Some t →
     twitter_apiKey t ≠ [] ∧ twitter_apiSecret t ≠ []
     ∧ twitter_accessToken t ≠ [] ∧ twitter_accessSecret t ≠ [])
  ∧ (provider (ai config) = js "openai" →
     ∃ key, apiKey (ai config) = Some key ∧ key ≠ []).
Proof.
  unfold validateConfig. rewrite app_nil. apply both_iff.
  - destruct (JsString.eqb (mode config) (js "twitter")) eqn:Em.
    + apply eqb_iff in Em. destruct (twitter config) as [t|].
      * rewrite !app_nil, !requireText_nil. split.
        -- intros H _ t' [= <-]. tauto.
        -- intros H. specialize (H Em t eq_refl). tauto.
      * split; [intros _ _ t; discriminate | done].
    + split; [|done]. intros _ Hm. apply eqb_iff in Hm. congruence.
  - destruct (JsString.eqb (provider (ai config)) (js "openai")) eqn:Ep; cbn [andb].
    + apply eqb_iff in Ep. destruct (apiKey (ai config)) as [key|]; cbn [truthyOption negb].
      * destruct (truthy key) eqn:Ek; cbn [negb].
        -- split; [|done]. intros _ _. exists key. by rewrite <- truthy_nonempty.
        -- split; [discriminate|]. intros H. destruct (H Ep) as (k & [= <-] & Hk).
           apply truthy_nonempty in Hk. congruence.
      * split; [discriminate|]. intros H. destruct (H Ep) as (k & Hk & _). discriminate.
    + split; [|done]. intros _ Hp. apply eqb_iff in Hp. congruence.
Qed.

(** X22: [validateConfig] reports nothing exactly when the Twitter
    mode, if it is the mode and a Twitter section is present, has its four
    credentials, and the OpenAI provider, if it is the provider, has a
    key that is not empty; in particular any other mode with any other
    provider is accepted as it is. *)
Theorem validateConfig_accepts (config : BotConfig) :
  (validateConfig config = [] ↔
   (mode config = js "twitter" → ∀ t, twitter config = Some t →
      twitter_apiKey t ≠ [] ∧ twitter_apiSecret t ≠ []
      ∧ twitter_accessToken t ≠ [] ∧ twitter_accessSecret t ≠ [])
   ∧ (provider (ai config) = js "openai" →
      ∃ key, apiKey (ai config) = Some key ∧ key ≠ []))
  ∧ (mode config ≠ js "twitter" → provider (ai config) ≠ js "openai" →
     validateConfig config = []).
Proof.
  split; [apply validateConfig_core|].
  intros Hm Hp. apply validateConfig_core. split; intros; contradiction.
Qed.

(** X23: the errors of [validateConfig] are some of its five messages,
    each at most once and in the fixed order; there are never more than
    five. *)
Theorem validateConfig_errors_are_ordered (config : BotConfig) :
  validateConfig config `sublist_of` allConfigErrors
  ∧ (length (validateConfig config) ≤ 5)%nat.
Proof.
  assert (H : validateConfig config `sublist_of` allConfigErrors).
  { unfold validateConfig.
    change allConfigErrors with
      (([js "TWITTER_API_KEY is required"]
        ++ [js "TWITTER_API_SECRET is required"]
        ++ [js "TWITTER_ACCESS_TOKEN is required"]
        ++ [js "TWITTER_ACCESS_SECRET is required"])
       ++ [js "OPENAI_API_KEY is required when using OpenAI provider"]).
    apply sublist_app.
    - destruct (JsString.eqb (mode config) (js "twitter")); [|apply sublist_nil_l].
      destruct (twitter config) as [t|]; [|apply sublist_nil_l].
      repeat apply sublist_app; apply requireText_sublist.
    - destruct (_ && _); [done | apply sublist_nil_l]. }
  split; [exact H|]. apply sublist_length in H. exact H.
Qed.

(** X24: the loaded configuration has a web section exactly when its
    mode is [web], which it is when [BOT_MODE] is unset or empty; the
    Twitter, Solana and SAP sections are always there. *)
Theorem loadConfig_sections (env : Env) :
  let config := loadConfig env in
  (is_Some (web config) ↔ mode config = js "web")
  ∧ ((env !! "BOT_MODE" = None ∨ env !! "BOT_MODE" = Some []) → mode config = js "web")
  ∧ is_Some (twitter config) ∧ is_Some (solana config) ∧ is_Some (sap config).
Proof.
  intros config. subst config. unfold loadConfig. cbn [web mode twitter solana sap].
  split; [|split; [|by repeat split]].
  - destruct (JsString.eqb (trim (envOr env "BOT_MODE" "web")) (js "web")) eqn:E.
    + apply eqb_iff in E. split; [done | by eexists].
    + split; [by intros [? ?]|]. intros H. apply eqb_iff in H. congruence.
  - unfold envOr. intros [-> | ->]; reflexivity.
Qed.

(** X25: a [BOT_MODE] made of white space only is neither mode: the
    loaded mode is the empty text, there is no web section, and
    [validateConfig] asks for no Twitter credential. *)
Theorem blank_mode_is_no_mode (env : Env) (v : jsstring) :
  env !! "BOT_MODE" = Some v → v ≠ [] → Forall (λ c, isWhiteSpace c = true) v →
  mode (loadConfig env) = []
  ∧ web (loadConfig env) = None
  ∧ validateConfig (loadConfig env) `sublist_of`
      [js "OPENAI_API_KEY is required when using OpenAI provider"].
Proof.
  intros Hv Hne Hblank.
  assert (Hmode : trim (envOr env "BOT_MODE" "web") = []).
  { unfold envOr. rewrite Hv. destruct v as [|c v]; [done|]. cbn [orDefault truthy].
    by apply trim_blank. }
  unfold validateConfig, loadConfig. cbn [mode web twitter ai provider apiKey].
  rewrite Hmode. split; [reflexivity|]. split; [reflexivity|].
  change (JsString.eqb [] (js "twitter")) with false. cbn [app].
  destruct (_ && _); [done | apply sublist_nil_l].
Qed.

Lemma trimmed_flag (env : Env) (name : string) :
  negb (JsString.eqb (trim (envOr env name "true")) (js "false")) = false
  ↔ ∃ v, env !! name = Some v ∧ trim v = js "false".
Proof.
  rewrite negb_false_iff, eqb_iff. unfold envOr.
  destruct (orDefault_set (env !! name) (js "true")) as [(v & Hv & Hne & ->)|[Hv ->]].
  - split; [intros H; by exists v|]. intros (v' & Hv' & H). congruence.
  - split; [intros H; vm_compute in H; discriminate|].
    intros (v & Hv' & H). destruct Hv as [Hv|Hv]; rewrite Hv in Hv'; [discriminate|].
    injection Hv' as <-. vm_compute in H. discriminate.
Qed.

Lemma exact_flag (env : Env) (name : string) :
  envNotFalse env name = false ↔ env !! name = Some (js "false").
Proof.
  unfold envNotFalse. rewrite negb_false_iff. apply bool_decide_eq_true.
Qed.

(** X26: [SOLANA_ENABLED] and [SAP_ENABLED] switch their section off
    exactly when their value, trimmed, is [false]; the Twitter and CORS
    flags are off exactly when the value is [false] as it stands.  Any
    other value, and no value, leaves the flag on. *)
Theorem enabled_flags (env : Env) :
  let config := loadConfig env in
  (solana_enabled <$> solana config = Some false
   ↔ ∃ v, env !! "SOLANA_ENABLED" = Some v ∧ trim v = js "false")
  ∧ (sap_enabled <$> sap config = Some false
     ↔ ∃ v, env !! "SAP_ENABLED" = Some v ∧ trim v = js "false")
  ∧ (twitter_autoReply <$> twitter config = Some false
     ↔ env !! "TWITTER_AUTO_REPLY" = Some (js "false"))
  ∧ (twitter_replyToMentions <$> twitter config = Some false
     ↔ env !! "TWITTER_REPLY_MENTIONS" = Some (js "false"))
  ∧ (web_enableCors <$> web config = Some false
     → env !! "WEB_ENABLE_CORS" = Some (js "false")).
Proof.
  intros config. subst config. unfold loadConfig.
  cbn [solana sap twitter web fmap option_fmap option_map
       solana_enabled sap_enabled twitter_autoReply twitter_replyToMentions].
  repeat split.
  - intros [= H]. by apply trimmed_flag.
  - intros H. f_equal. by apply trimmed_flag.
  - intros [= H]. by apply trimmed_flag.
  - intros H. f_equal. by apply trimmed_flag.
  - intros [= H]. by apply exact_flag.
  - intros H. f_equal. by apply exact_flag.
  - intros [= H]. by apply exact_flag.
  - intros H. f_equal. by apply exact_flag.
  - destruct (JsString.eqb _ _); [|discriminate]. cbn. intros [= H].
    by apply exact_flag.
Qed.

Lemma trim_isTrimmed (s : jsstring) : isTrimmed (trim s).
Proof. split; [apply trim_leading | apply trim_trailing]. Qed.

(** X27: the texts [loadConfig] trims never begin or end with white
    space: mode, provider, model name, API key, base URL, RPC URL,
    network, and the agent's name, description and version. *)
Theorem loaded_texts_are_trimmed (env : Env) :
  let config := loadConfig env in
  Forall isTrimmed
    [mode config; provider (ai config); modelName (ai config); baseUrl (ai config)]
  ∧ (∀ key, apiKey (ai config) = Some key → isTrimmed key)
  ∧ (∀ so, solana config = Some so →
       (∀ url, solana_rpcUrl so = Some url → isTrimmed url)
       ∧ (∀ net, solana_network so = Some net → isTrimmed net))
  ∧ (∀ sa, sap config = Some sa →
       Forall isTrimmed [sap_agentName sa; sap_agentDescription sa; sap_agentVersion sa]).
Proof.
  intros config. subst config. unfold loadConfig.
  cbn [mode ai provider modelName baseUrl apiKey solana sap].
  split; [repeat constructor; apply trim_isTrimmed|]. split.
  - intros key Hkey. destruct (env !! "OPENAI_API_KEY"); [|discriminate].
    injection Hkey as <-. apply trim_isTrimmed.
  - split.
    + intros so [= <-]. cbn. split; intros ? [= <-]; apply trim_isTrimmed.
    + intros sa [= <-]. cbn. repeat constructor; apply trim_isTrimmed.
Qed.

(** X28: loading and then validating reports nothing exactly when the
    environment, if its trimmed mode is [twitter], sets the four Twitter
    credentials, and, if its trimmed provider is [openai], sets an OpenAI
    key that is not blank.  The empty environment is valid. *)
Theorem loaded_config_is_valid (env : Env) :
  (validateConfig (loadConfig env) = [] ↔
   (trim (envOr env "BOT_MODE" "web") = js "twitter" →
      isSet env "TWITTER_API_KEY" ∧ isSet env "TWITTER_API_SECRET"
      ∧ isSet env "TWITTER_ACCESS_TOKEN" ∧ isSet env "TWITTER_ACCESS_SECRET")
   ∧ (trim (envOr env "AI_PROVIDER" "local") = js "openai" →
      ∃ v, env !! "OPENAI_API_KEY" = Some v ∧ trim v ≠ []))
  ∧ validateConfig (loadConfig ∅) = [].
Proof.
  split.
  - assert (Hvalid := validateConfig_core (loadConfig env)).
    rewrite Hvalid. unfold loadConfig.
    cbn [mode twitter ai provider apiKey]. apply both_iff.
    + split.
      * intros H Hm. specialize (H Hm _ eq_refl).
        cbn in H. rewrite !envOr_empty_fallback in H. exact H.
      * intros H Hm t [= <-]. cbn. rewrite !envOr_empty_fallback. by apply H.
    + split.
      * intros H Hp. destruct (H Hp) as (key & Hkey & Hne).
        destruct (env !! "OPENAI_API_KEY") as [v|]; [|discriminate].
        injection Hkey as <-. by exists v.
      * intros H Hp. destruct (H Hp) as (v & Hv & Hne). rewrite Hv.
        by exists (trim v).
  - apply validateConfig_core. split.
    + intros H. vm_compute in H. discriminate.
    + intros H. vm_compute in H. discriminate.
Qed.

(** X29: [initApp] builds the registry front exactly when neither
    [SAP_ENABLED] nor [SOLANA_ENABLED], trimmed, is [false]. *)
Theorem sap_protocol_is_wanted (env : Env) :
  wantsSapProtocol (loadConfig env) = true ↔
  (∀ v, env !! "SAP_ENABLED" = Some v → trim v ≠ js "false")
  ∧ (∀ v, env !! "SOLANA_ENABLED" = Some v → trim v ≠ js "false").
Proof.
  unfold wantsSapProtocol, loadConfig. cbn [sap solana sap_enabled solana_enabled].
  rewrite andb_true_iff. apply both_iff.
  - rewrite <- not_false_iff_true, trimmed_flag. split.
    + intros H v Hv Ht. apply H. by exists v.
    + intros H (v & Hv & Ht). by apply (H v).
  - rewrite <- not_false_iff_true, trimmed_flag. split.
    + intros H v Hv Ht. apply H. by exists v.
    + intros H (v & Hv & Ht). by apply (H v).
Qed.

End WithNumbers.

Lemma validateConfig_accepts_witness :
  let config := @loadConfig unparsedNumbers ∅ in
  mode config ≠ js "twitter"
  ∧ provider (ai config) ≠ js "openai"
  ∧ validateConfig config = [].
Proof.
  intros config.
  assert (H1 : mode config ≠ js "twitter") by (vm_compute; discriminate).
  assert (H2 : provider (ai config) ≠ js "openai") by (vm_compute; discriminate).
  exact (conj H1 (conj H2 (proj2 (@validateConfig_accepts unparsedNumbers config) H1 H2))).
Defined.

Lemma loadConfig_sections_witness :
  let config := @loadConfig unparsedNumbers ∅ in
  ((∅ : Env) !! "BOT_MODE" = None ∨ (∅ : Env) !! "BOT_MODE" = Some [])
  ∧ mode config = js "web"
  ∧ is_Some (web config).
Proof.
  intros config.
  assert (H : (∅ : Env) !! "BOT_MODE" = None ∨ (∅ : Env) !! "BOT_MODE" = Some [])
    by (left; reflexivity).
  destruct (@loadConfig_sections unparsedNumbers ∅) as (Hweb & Hmode & _).
  refine (conj H (conj (Hmode H) _)). apply Hweb. exact (Hmode H).
Defined.

Lemma blank_mode_is_no_mode_witness :
  Examples.paddedEnv !! "BOT_MODE" = Some (js "  ")
  ∧ js "  " ≠ []
  ∧ Forall (λ c, isWhiteSpace c = true) (js "  ")
  ∧ mode (@loadConfig unparsedNumbers Examples.paddedEnv) = []
  ∧ web (@loadConfig unparsedNumbers Examples.paddedEnv) = None.
Proof.
  assert (H1 : Examples.paddedEnv !! "BOT_MODE" = Some (js "  "))
    by (vm_compute; reflexivity).
  assert (H2 : js "  " ≠ []) by (vm_compute; discriminate).
  assert (H3 : Forall (λ c, isWhiteSpace c = true) (js "  ")) by (repeat constructor).
  destruct (@blank_mode_is_no_mode unparsedNumbers Examples.paddedEnv _ H1 H2 H3)
    as (Hmode & Hweb & _).
  exact (conj H1 (conj H2 (conj H3 (conj Hmode Hweb)))).
Defined.

Lemma enabled_flags_witness :
  let config := @loadConfig unparsedNumbers Examples.paddedEnv in
  (∃ v, Examples.paddedEnv !! "SOLANA_ENABLED" = Some v ∧ trim v = js "false")
  ∧ solana_enabled <$> solana config = Some false
  ∧ twitter_autoReply <$> twitter config ≠ Some false.
Proof.
  intros config.
  assert (H : ∃ v, Examples.paddedEnv !! "SOLANA_ENABLED" = Some v ∧ trim v = js "false").
  { exists (js " false "). split; vm_compute; reflexivity. }
  destruct (@enabled_flags unparsedNumbers Examples.paddedEnv) as (Hsol & _ & Htw & _).
  refine (conj H (conj (proj2 Hsol H) _)).
  intros Hoff. apply Htw in Hoff. vm_compute in Hoff. discriminate.
Defined.

Lemma loaded_texts_are_trimmed_witness :
  let config := @loadConfig unparsedNumbers Examples.paddedEnv in
  apiKey (ai config) = Some (js "sk-123") ∧ isTrimmed (js "sk-123").
Proof.
  intros config.
  assert (H : apiKey (ai config) = Some (js "sk-123")) by (vm_compute; reflexivity).
  destruct (@loaded_texts_are_trimmed unparsedNumbers Examples.paddedEnv)
    as (_ & Hkey & _).
  exact (conj H (Hkey _ H)).
Defined.

Lemma loaded_config_is_valid_witness :
  let env : Env := {[ "BOT_MODE" := js "twitter"; "AI_PROVIDER" := js " openai ";
                      "OPENAI_API_KEY" := js "   " ]} in
  @validateConfig unparsedNumbers (@loadConfig unparsedNumbers env) ≠ [].
Proof.
  intros env Hvalid.
  apply (proj1 (@loaded_config_is_valid unparsedNumbers env)) in Hvalid
    as [_ Hkey].
  destruct (Hkey ltac:(vm_compute; reflexivity)) as (v & Hv & Hne).
  vm_compute in Hv. injection Hv as <-. apply Hne. vm_compute. reflexivity.
Defined.

Lemma sap_protocol_is_wanted_witness :
  @wantsSapProtocol unparsedNumbers (@loadConfig unparsedNumbers Examples.paddedEnv)
  ≠ true.
Proof.
  intros Hwanted.
  apply (@sap_protocol_is_wanted unparsedNumbers) in Hwanted as [_ Hsol].
  apply (Hsol (js " false ")); vm_compute; reflexivity.
Defined.

End ConfigFacts.

(** ** The serverless entry point *)

Module ApiFacts.

Import ApiHandler.

Lemma serve_warm {App} (attempts : list (Completion App)) (app : App) :
  serve attempts {| appHandler := Some app; initPromise := true |}
  = replicate (length attempts) (Delegated app, false).
Proof.
  induction attempts as [|a rest IH]; [reflexivity|].
  cbn [serve handler initPromise appHandler negb length replicate]. by rewrite IH.
Qed.

Lemma serve_failures {App} (fails rest : list (Completion App)) :
  Forall (λ c, succeeded c = false) fails →
  serve (fails ++ rest) cold
  = replicate (length fails) (InitializationFailed, true) ++ serve rest cold.
Proof.
  induction 1 as [|a fails Ha _ IH]; [reflexivity|].
  destruct a as [app|t]; [discriminate|].
  cbn [app serve handler cold initPromise appHandler negb length replicate].
  fold (@cold App). by rewrite IH.
Qed.

(** X30: invocations served one after another by one instance: as long
    as the initialization fails, each invocation starts it again and ends
    with status 500; the first one whose initialization succeeds is handed
    to the application; every later one is handed to that same application
    and starts no initialization. *)
Theorem warm_instance_initializes_once {App} (fails rest : list (Completion App))
    (app : App) :
  Forall (λ c, succeeded c = false) fails →
  serve (fails ++ Normal app :: rest) cold
  = replicate (length fails) (InitializationFailed, true)
    ++ (Delegated app, true) :: replicate (length rest) (Delegated app, false)
  ∧ serve fails cold = replicate (length fails) (InitializationFailed, true).
Proof.
  intros Hfails. split.
  - rewrite serve_failures by done. f_equal.
    cbn [serve handler cold initPromise appHandler negb]. by rewrite serve_warm.
  - rewrite <- (app_nil_r fails) at 1. rewrite serve_failures by done.
    cbn [serve]. by rewrite app_nil_r.
Qed.

Lemma warm_instance_initializes_once_witness :
  let fails : list (Completion nat) :=
    [Abrupt (ThrownObject Examples.boom); Abrupt (ThrownNullish JsNull)] in
  Forall (λ c, succeeded c = false) fails
  ∧ serve (fails ++ [Normal 7%nat; Abrupt (ThrownObject Examples.boom); Normal 8%nat]) cold
    = [(InitializationFailed, true); (InitializationFailed, true);
       (Delegated 7%nat, true); (Delegated 7%nat, false); (Delegated 7%nat, false)].
Proof.
  intros fails.
  assert (H : Forall (λ c, succeeded c = false) fails) by (repeat constructor).
  exact (conj H (proj1 (warm_instance_initializes_once fails _ 7%nat H))).
Defined.

End ApiFacts.

(** ** Failures of the completion client *)

Section CompletionFailure.
Context {U : UnicodeTables}.

(** X12: when the completion client rejects with a value, the request is
    not repeated and the response is [Error: ] followed by the first text
    that is not empty among the API's error message, the API's message,
    the error's own message and the error's string form. *)
Theorem completion_failure_is_reported p message history e :
  notRecognized p message →
  cleanInput message ≠ [] →
  (Z.of_nat (length (cleanInput message)) ≤ maxInputLength p)%Z →
  generateChat (model p) (effectivePrompt p)
    (submittedMessages history (cleanInput message)) = Abrupt (ThrownObject e) →
  let detail := orElse (err_response_data_error_message e)
                  (orElse (err_response_data_message e)
                     (orElse (err_message e) (err_toString e))) in
  processMessage p message history
  = (recognizerCalls p message
     ++ [CallGenerateChat (effectivePrompt p)
           (submittedMessages history (cleanInput message))],
     Normal (js "Error: " ++ detail))
  ∧ (∀ d, err_response_data_error_message e = Some d → d ≠ [] → detail = d)
  ∧ (truthyOption (err_response_data_error_message e) = false →
     truthyOption (err_response_data_message e) = false →
     truthyOption (err_message e) = false → detail = err_toString e).
Proof.
  intros Hnot Hne Hfits Hchat detail.
  assert (Htruthy : truthy (cleanInput message) = true)
    by (by destruct (cleanInput message)).
  split; [|split].
  - rewrite processMessage_not_recognized by done.
    rewrite completionPath_submitted by done. unfold calls, outcome. cbn [fst snd].
    rewrite Hchat. reflexivity.
  - intros d Hd Hdne. unfold detail. rewrite Hd. cbn [orElse].
    by destruct d.
  - unfold detail, truthyOption, orElse. intros H1 H2 H3.
    destruct (err_response_data_error_message e); [rewrite H1|];
      (destruct (err_response_data_message e); [rewrite H2|]);
      (destruct (err_message e); [rewrite H3|]); reflexivity.
Qed.

End CompletionFailure.

Lemma completion_failure_is_reported_witness :
  let p := newAIProcessor (Examples.rejectingModel Examples.rateLimited)
             Examples.eagerHandler Examples.prompt Examples.defaults in
  let message := js "hi" in
  notRecognized p message
  ∧ @cleanInput BasicUnicode.tables message ≠ []
  ∧ (Z.of_nat (length (@cleanInput BasicUnicode.tables message)) ≤ maxInputLength p)%Z
  ∧ @processMessage BasicUnicode.tables p message None
    = ([CallGenerateChat Examples.prompt [{| role := user; content := js "hi" |}]],
       Normal (js "Error: Rate limit reached")).
Proof.
  intros p message.
  assert (H1 : notRecognized p message) by (intros h Hh; discriminate).
  assert (H2 : @cleanInput BasicUnicode.tables message ≠ [])
    by (vm_compute; discriminate).
  assert (H3 : (Z.of_nat (length (@cleanInput BasicUnicode.tables message))
                ≤ maxInputLength p)%Z) by (vm_compute; discriminate).
  refine (conj H1 (conj H2 (conj H3 _))).
  rewrite (proj1 (@completion_failure_is_reported BasicUnicode.tables p message None
                    Examples.rateLimited H1 H2 H3 eq_refl)).
  vm_compute. reflexivity.
Defined.
